(** * AI Thumbnail Generator: prompt composition, page handlers, generate proxy

    A shallow embedding of [src/app/page.tsx] (the client page) and of the
    generate route handler, with the properties of the specification stated
    over it.

    JavaScript strings are sequences of UTF-16 code units; [length] is the
    [.length] of the source.  The async handlers of the page are functions in
    a small state-and-exception monad: what the environment answers (the file
    reader, [fetch], [Date.now], local storage) is an explicit argument. *)

From Stdlib Require Import List NArith Arith String Ascii Bool Lia.
Import ListNotations.

Set Implicit Arguments.

(* ===================================================================== *)
(** ** JavaScript strings *)
(* ===================================================================== *)

Module JS.

Definition code_unit := N.
Definition jsstring := list code_unit.

(** An ASCII literal of the source, as code units. *)
Definition lit (s : string) : jsstring :=
  map N_of_ascii (list_ascii_of_string s).

(** ToBoolean on a string: only the empty string is falsy. *)
Definition truthy (s : jsstring) : bool :=
  match s with
  | [] => false
  | _ :: _ => true
  end.

(** [a || b] on strings. *)
Definition or_else (a b : jsstring) : jsstring :=
  if truthy a then a else b.

(** WhiteSpace and LineTerminator code points of ECMA-262, the ones
    [String.prototype.trim] strips. *)
Definition is_white_space (c : code_unit) : bool :=
  ((9 <=? c) && (c <=? 13) || (c =? 32) || (c =? 160) || (c =? 5760)
   || (8192 <=? c) && (c <=? 8202)
   || (c =? 8232) || (c =? 8233) || (c =? 8239) || (c =? 8287)
   || (c =? 12288) || (c =? 65279))%N.

Fixpoint trimStart (s : jsstring) : jsstring :=
  match s with
  | [] => []
  | c :: rest => if is_white_space c then trimStart rest else s
  end.

Definition trimEnd (s : jsstring) : jsstring :=
  rev (trimStart (rev s)).

Definition trim (s : jsstring) : jsstring :=
  trimEnd (trimStart s).

(** [s.slice(0, n)] for a natural [n]. *)
Definition slice0 (s : jsstring) (n : nat) : jsstring := firstn n s.

(** [parts.join(sep)]. *)
Fixpoint join (sep : jsstring) (parts : list jsstring) : jsstring :=
  match parts with
  | [] => []
  | p :: rest =>
      match rest with
      | [] => p
      | _ :: _ => p ++ sep ++ join sep rest
      end
  end.

Fixpoint eqb (a b : jsstring) : bool :=
  match a, b with
  | [], [] => true
  | x :: a', y :: b' => N.eqb x y && eqb a' b'
  | _, _ => false
  end.

(** Code units the literals cannot hold. *)
Definition dquote : code_unit := 34%N.
Definition backslash : code_unit := 92%N.
Definition ellipsis : code_unit := 8230%N.

End JS.

Import JS.

(* ===================================================================== *)
(** ** Data model of the page *)
(* ===================================================================== *)

Inductive Category := Education | Cooking | Vlog | Gaming | Tech | Other.
Inductive Style := Minimal | Bold | Fun | Professional | Custom_style.
Inductive Vibe := Bright | Dark | Pastel | Neon | Custom_vibe.

Definition Category_label (c : Category) : jsstring :=
  match c with
  | Education => lit "Education"
  | Cooking => lit "Cooking"
  | Vlog => lit "Vlog"
  | Gaming => lit "Gaming"
  | Tech => lit "Tech"
  | Other => lit "Other"
  end.

Definition Style_label (s : Style) : jsstring :=
  match s with
  | Minimal => lit "Minimal"
  | Bold => lit "Bold"
  | Fun => lit "Fun"
  | Professional => lit "Professional"
  | Custom_style => lit "Custom"
  end.

Definition Vibe_label (v : Vibe) : jsstring :=
  match v with
  | Bright => lit "Bright"
  | Dark => lit "Dark"
  | Pastel => lit "Pastel"
  | Neon => lit "Neon"
  | Custom_vibe => lit "Custom"
  end.

Record FormAnswers := mkAnswers {
  category : Category;
  customCategory : jsstring;
  style : Style;
  customStyle : jsstring;
  textOverlay : jsstring;
  vibe : Vibe;
  customVibe : jsstring
}.

Record HistoryItem := mkItem {
  data_url : jsstring;
  item_prompt : jsstring;
  item_answers : FormAnswers;
  timestamp : N
}.

Definition DEFAULT_ANSWERS : FormAnswers :=
  {| category := Tech; customCategory := [];
     style := Minimal; customStyle := [];
     textOverlay := [];
     vibe := Bright; customVibe := [] |}.

(* ===================================================================== *)
(** ** composePrompt *)
(* ===================================================================== *)

Definition categoryText (answers : FormAnswers) : jsstring :=
  match category answers with
  | Other => or_else (customCategory answers) (lit "Other")
  | c => Category_label c
  end.

Definition styleText (answers : FormAnswers) : jsstring :=
  match style answers with
  | Custom_style => or_else (customStyle answers) (lit "Custom")
  | s => Style_label s
  end.

Definition vibeText (answers : FormAnswers) : jsstring :=
  match vibe answers with
  | Custom_vibe => or_else (customVibe answers) (lit "Custom")
  | v => Vibe_label v
  end.

Definition overlay (answers : FormAnswers) : jsstring :=
  if truthy (textOverlay answers)
     && (0 <? List.length (trim (textOverlay answers)))
  then lit "Include text overlay: " ++ [dquote]
         ++ trim (textOverlay answers) ++ [dquote] ++ lit "."
  else lit "No text overlay.".

Definition guidelines : jsstring :=
  lit "16:9 thumbnail composition, high contrast, no watermarks, suitable for social/YouTube.".

(** The [parts] array as it is when [composePrompt] joins it. *)
Definition composeParts (answers : FormAnswers) (hasImage : bool)
  : list jsstring :=
  [ lit "Category: " ++ categoryText answers ++ lit ".";
    lit "Style: " ++ styleText answers ++ lit ".";
    lit "Colors/Vibe: " ++ vibeText answers ++ lit ".";
    overlay answers ]
  ++ (if hasImage
      then [lit "Use the uploaded reference image as visual guidance."]
      else [])
  ++ [guidelines].

Definition composePrompt (answers : FormAnswers) (hasImage : bool)
  : jsstring :=
  join (lit " ") (composeParts answers hasImage).

(** The utility at the end of the page. *)
Definition truncate (s : jsstring) (n : nat) : jsstring :=
  if n <? List.length s then slice0 s n ++ [ellipsis] else s.

(* ===================================================================== *)
(** ** JSON.stringify of the request payloads *)
(* ===================================================================== *)

Module Json.

Definition hex_digit (d : N) : code_unit :=
  (if d <? 10 then 48 + d else 87 + d)%N.

(** [\uXXXX], lower-case hexadecimal. *)
Definition unicode_escape (c : code_unit) : jsstring :=
  [backslash; 117%N;
   hex_digit (c / 4096); hex_digit ((c / 256) mod 16);
   hex_digit ((c / 16) mod 16); hex_digit (c mod 16)]%N.

Definition is_high_surrogate (c : code_unit) : bool :=
  ((55296 <=? c) && (c <=? 56319))%N.

Definition is_low_surrogate (c : code_unit) : bool :=
  ((56320 <=? c) && (c <=? 57343))%N.

(** QuoteJSONString without the surrounding quotes: the two-character
    escapes, [\u00XX] for the other control characters, [\uXXXX] for a
    surrogate that is not part of a pair, everything else as it is. *)
Fixpoint quote_units (s : jsstring) : jsstring :=
  match s with
  | [] => []
  | c :: rest =>
      if (c =? 8)%N then [backslash; 98%N] ++ quote_units rest
      else if (c =? 9)%N then [backslash; 116%N] ++ quote_units rest
      else if (c =? 10)%N then [backslash; 110%N] ++ quote_units rest
      else if (c =? 12)%N then [backslash; 102%N] ++ quote_units rest
      else if (c =? 13)%N then [backslash; 114%N] ++ quote_units rest
      else if (c =? 34)%N then [backslash; dquote] ++ quote_units rest
      else if (c =? 92)%N then [backslash; backslash] ++ quote_units rest
      else if (c <? 32)%N then unicode_escape c ++ quote_units rest
      else if is_high_surrogate c then
        match rest with
        | d :: rest' =>
            if is_low_surrogate d then c :: d :: quote_units rest'
            else unicode_escape c ++ quote_units rest
        | [] => unicode_escape c
        end
      else if is_low_surrogate c then unicode_escape c ++ quote_units rest
      else c :: quote_units rest
  end.

Definition quote (s : jsstring) : jsstring :=
  [dquote] ++ quote_units s ++ [dquote].

(** One [key:value] member with a string value. *)
Definition member (key : jsstring) (value : jsstring) : jsstring :=
  quote key ++ [58%N] ++ quote value.

End Json.

(* ===================================================================== *)
(** ** Requests, files and the page state *)
(* ===================================================================== *)

Inductive Route := ApiGenerate | ApiEdit.

(** The two payload objects [handleSubmit] builds. *)
Inductive Payload :=
| GeneratePayload (prompt : jsstring)
| EditPayload (prompt base64Image mimeType : jsstring).

Definition payload_prompt (p : Payload) : jsstring :=
  match p with
  | GeneratePayload prompt => prompt
  | EditPayload prompt _ _ => prompt
  end.

(** [JSON.stringify(payload)]: members in property creation order. *)
Definition JSON_stringify (p : Payload) : jsstring :=
  match p with
  | GeneratePayload prompt =>
      [123%N] ++ Json.member (lit "prompt") prompt ++ [125%N]
  | EditPayload prompt base64Image mimeType =>
      [123%N] ++ Json.member (lit "prompt") prompt
        ++ [44%N] ++ Json.member (lit "base64Image") base64Image
        ++ [44%N] ++ Json.member (lit "mimeType") mimeType ++ [125%N]
  end.

Record LastRequest := mkLast { route : Route; payload : Payload }.

(** What [fetch(route, {method: POST, ..., body})] sends. *)
Record Request := mkRequest { req_route : Route; req_body : jsstring }.

Definition request_of (lr : LastRequest) : Request :=
  {| req_route := route lr; req_body := JSON_stringify (payload lr) |}.

(** An uploaded file: its [type] and what a [FileReader] makes of it
    ([None] when the reader fires [onerror]). *)
Record File := mkFile { file_type : jsstring; file_dataURL : option jsstring }.

(** The state of [Page] that the handlers below read or write; the theme
    and the preview URL of the upload take no part in them. *)
Record PageState := mkPage {
  answers : FormAnswers;
  prompt : jsstring;
  promptTouched : bool;
  uploadFile : option File;
  imageUrl : jsstring;
  loading : bool;
  error : jsstring;
  history : list HistoryItem;
  lastRequestRef : option LastRequest;
  (** the [thumbHistory] entry of local storage *)
  thumbHistory : option (list HistoryItem)
}.

Definition derivedPrompt (p : PageState) : jsstring :=
  composePrompt (answers p)
    (match uploadFile p with Some _ => true | None => false end).

Definition with_answers (a : FormAnswers) (p : PageState) : PageState :=
  mkPage a (prompt p) (promptTouched p) (uploadFile p) (imageUrl p)
    (loading p) (error p) (history p) (lastRequestRef p) (thumbHistory p).

Definition with_prompt (s : jsstring) (p : PageState) : PageState :=
  mkPage (answers p) s (promptTouched p) (uploadFile p) (imageUrl p)
    (loading p) (error p) (history p) (lastRequestRef p) (thumbHistory p).

Definition with_promptTouched (b : bool) (p : PageState) : PageState :=
  mkPage (answers p) (prompt p) b (uploadFile p) (imageUrl p)
    (loading p) (error p) (history p) (lastRequestRef p) (thumbHistory p).

Definition with_uploadFile (f : option File) (p : PageState) : PageState :=
  mkPage (answers p) (prompt p) (promptTouched p) f (imageUrl p)
    (loading p) (error p) (history p) (lastRequestRef p) (thumbHistory p).

Definition with_imageUrl (u : jsstring) (p : PageState) : PageState :=
  mkPage (answers p) (prompt p) (promptTouched p) (uploadFile p) u
    (loading p) (error p) (history p) (lastRequestRef p) (thumbHistory p).

Definition with_loading (b : bool) (p : PageState) : PageState :=
  mkPage (answers p) (prompt p) (promptTouched p) (uploadFile p) (imageUrl p)
    b (error p) (history p) (lastRequestRef p) (thumbHistory p).

Definition with_error (m : jsstring) (p : PageState) : PageState :=
  mkPage (answers p) (prompt p) (promptTouched p) (uploadFile p) (imageUrl p)
    (loading p) m (history p) (lastRequestRef p) (thumbHistory p).

Definition with_history (h : list HistoryItem) (p : PageState) : PageState :=
  mkPage (answers p) (prompt p) (promptTouched p) (uploadFile p) (imageUrl p)
    (loading p) (error p) h (lastRequestRef p) (thumbHistory p).

Definition with_lastRequestRef (r : option LastRequest) (p : PageState)
  : PageState :=
  mkPage (answers p) (prompt p) (promptTouched p) (uploadFile p) (imageUrl p)
    (loading p) (error p) (history p) r (thumbHistory p).

Definition with_thumbHistory (t : option (list HistoryItem)) (p : PageState)
  : PageState :=
  mkPage (answers p) (prompt p) (promptTouched p) (uploadFile p) (imageUrl p)
    (loading p) (error p) (history p) (lastRequestRef p) t.

(* ===================================================================== *)
(** ** What the environment answers *)
(* ===================================================================== *)

(** [res.json()]: a parse failure, or the parsed value seen through
    [json?.data_url] ([None] when the value or the property is missing). *)
Inductive JsonOutcome :=
| JsonThrows (message : jsstring)
| JsonValue (data_url : option jsstring).

(** A response: [res.ok], [res.text()] ([None] when reading it fails) and
    [res.json()]. *)
Record Response := mkResponse {
  ok : bool;
  text : option jsstring;
  json : JsonOutcome
}.

Inductive FetchOutcome :=
| FetchRejects (message : jsstring)
| FetchResolves (res : Response).

Record Env := mkEnv {
  fetchOutcome : FetchOutcome;
  (** [Date.now()] when the item is built *)
  now : N;
  (** whether [localStorage.setItem] succeeds *)
  storageWritable : bool
}.

(* ===================================================================== *)
(** ** The handler monad: page state, issued requests, exceptions *)
(* ===================================================================== *)

Record HState := mkHState {
  page : PageState;
  (** the requests handed to [fetch] so far, oldest first *)
  issued : list Request
}.

(** A thrown value is kept as its [message] (empty when it has none). *)
Inductive Outcome (A : Type) :=
| Returned (a : A)
| Thrown (message : jsstring).

Arguments Returned {A} a.
Arguments Thrown {A} message.

Definition Handler (A : Type) : Type := HState -> HState * Outcome A.

Definition ret {A} (a : A) : Handler A := fun st => (st, Returned a).

Definition throw {A} (message : jsstring) : Handler A :=
  fun st => (st, Thrown message).

Definition bind {A B} (m : Handler A) (k : A -> Handler B) : Handler B :=
  fun st =>
    match m st with
    | (st', Returned a) => k a st'
    | (st', Thrown message) => (st', Thrown message)
    end.

Declare Scope handler_scope.
Delimit Scope handler_scope with handler.
Notation "x <- m ;; k" := (bind m (fun x => k))
  (at level 61, m at next level, right associativity) : handler_scope.
Notation "m ;; k" := (bind m (fun _ => k))
  (at level 61, right associativity) : handler_scope.
Local Open Scope handler_scope.

(** [try { body } catch (err) { handler(err?.message) }]. *)
Definition try_catch {A} (body : Handler A) (handler : jsstring -> Handler A)
  : Handler A :=
  fun st =>
    match body st with
    | (st', Returned a) => (st', Returned a)
    | (st', Thrown message) => handler message st'
    end.

(** [try { body } finally { fin }]. *)
Definition try_finally {A} (body : Handler A) (fin : Handler unit)
  : Handler A :=
  fun st =>
    match body st with
    | (st', o) =>
        match fin st' with
        | (st'', Returned _) => (st'', o)
        | (st'', Thrown message) => (st'', Thrown message)
        end
    end.

Definition update (f : PageState -> PageState) : Handler unit :=
  fun st => (mkHState (f (page st)) (issued st), Returned tt).

Definition setError (m : jsstring) : Handler unit := update (with_error m).
Definition setLoading (b : bool) : Handler unit := update (with_loading b).
Definition setImageUrl (u : jsstring) : Handler unit :=
  update (with_imageUrl u).
Definition setLastRequestRef (r : LastRequest) : Handler unit :=
  update (with_lastRequestRef (Some r)).
Definition getLastRequestRef : Handler (option LastRequest) :=
  fun st => (st, Returned (lastRequestRef (page st))).

(** [fetch(route, {..., body})]: the request is issued, then the promise
    settles as the environment says. *)
Definition fetch (r : Route) (body : jsstring) (env : Env)
  : Handler Response :=
  fun st =>
    let st' := mkHState (page st) (issued st ++ [mkRequest r body]) in
    match fetchOutcome env with
    | FetchRejects message => (st', Thrown message)
    | FetchResolves res => (st', Returned res)
    end.

Definition safeReadText (res : Response) : jsstring :=
  match text res with
  | Some t => t
  | None => []
  end.

Definition res_json (res : Response) : Handler (option jsstring) :=
  match json res with
  | JsonThrows message => throw message
  | JsonValue d => ret d
  end.

(** [dataUrl.split(",")[1]]: what lies between the first comma and the
    second, [None] when there is no comma. *)
Fixpoint after_comma (s : jsstring) : option jsstring :=
  match s with
  | [] => None
  | c :: rest => if (c =? 44)%N then Some rest else after_comma rest
  end.

Fixpoint up_to_comma (s : jsstring) : jsstring :=
  match s with
  | [] => []
  | c :: rest => if (c =? 44)%N then [] else c :: up_to_comma rest
  end.

Definition split_comma_1 (s : jsstring) : option jsstring :=
  option_map up_to_comma (after_comma s).

Definition fileToBase64 (file : File) : Handler (jsstring * jsstring) :=
  let mime := or_else (file_type file) (lit "image/png") in
  match file_dataURL file with
  | None => throw (lit "Failed to read file")
  | Some dataUrl =>
      let base64 :=
        match split_comma_1 dataUrl with
        | Some b => or_else b []
        | None => []
        end in
      ret (base64, mime)
  end.

(** [setHistory((prev) => [item, ...prev])], with the write-through to
    local storage when the write succeeds. *)
Definition addToHistory (item : HistoryItem) (env : Env) : Handler unit :=
  update (fun p =>
    let next := item :: history p in
    with_history next
      (if storageWritable env then with_thumbHistory (Some next) p else p)).

(* ===================================================================== *)
(** ** handleSubmit, handleRegenerate and the other handlers *)
(* ===================================================================== *)

(** The template literal of the three [!res.ok] branches; [headline] is
    its fixed text, trailing space included. *)
Definition failure_message (headline details : jsstring) : jsstring :=
  headline
  ++ (if truthy details then lit "Details: " ++ truncate details 300 else []).

(** The common tail of the three request paths, from [if (!res.ok)] to
    [addToHistory].  [answers] is the closure's, [itemPrompt] the prompt the
    item records. *)
Definition receive (headline : jsstring) (res : Response)
    (itemPrompt : jsstring) (closureAnswers : FormAnswers) (env : Env)
  : Handler unit :=
  (if negb (ok res)
   then throw (failure_message headline (safeReadText res))
   else ret tt) ;;
  d <- res_json res ;;
  match d with
  | None => throw (lit "Invalid response: missing data_url")
  | Some url =>
      if negb (truthy url)
      then throw (lit "Invalid response: missing data_url")
      else
        setImageUrl url ;;
        addToHistory
          {| data_url := url; item_prompt := itemPrompt;
             item_answers := closureAnswers; timestamp := now env |} env
  end.

(** [(prompt || derivedPrompt).trim()], the prompt a submission sends. *)
Definition activePrompt (snap : PageState) : jsstring :=
  trim (or_else (prompt snap) (derivedPrompt snap)).

(** [snap] is the render the handler closes over: [prompt],
    [derivedPrompt], [uploadFile] and [answers] are read from it. *)
Definition handleSubmit (snap : PageState) (env : Env) : Handler unit :=
  setError [] ;;
  let activePrompt := activePrompt snap in
  if negb (truthy activePrompt)
  then setError (lit "Please provide a prompt or complete the guided answers.")
  else
    setLoading true ;;
    try_finally
      (try_catch
         (match uploadFile snap with
          | Some file =>
              bm <- fileToBase64 file ;;
              let payload := EditPayload activePrompt (fst bm) (snd bm) in
              setLastRequestRef {| route := ApiEdit; payload := payload |} ;;
              res <- fetch ApiEdit (JSON_stringify payload) env ;;
              receive (lit "Edit request failed. ") res activePrompt
                (answers snap) env
          | None =>
              let payload := GeneratePayload activePrompt in
              setLastRequestRef {| route := ApiGenerate; payload := payload |} ;;
              res <- fetch ApiGenerate (JSON_stringify payload) env ;;
              receive (lit "Generate request failed. ") res activePrompt
                (answers snap) env
          end)
         (fun message =>
            setError (or_else message
              (lit "Something went wrong while processing your request."))))
      (setLoading false).

Definition handleRegenerate (snap : PageState) (env : Env) : Handler unit :=
  last <- getLastRequestRef ;;
  match last with
  | None => ret tt
  | Some lr =>
      setError [] ;;
      setLoading true ;;
      try_finally
        (try_catch
           (res <- fetch (route lr) (JSON_stringify (payload lr)) env ;;
            receive (lit "Regenerate failed. ") res
              (payload_prompt (payload lr)) (answers snap) env)
           (fun message =>
              setError (or_else message
                (lit "Could not regenerate the image."))))
        (setLoading false)
  end.

(** [onAnswersChange(key, value)], one constructor per key. *)
Inductive AnswerEdit :=
| SetCategory (c : Category)
| SetCustomCategory (s : jsstring)
| SetStyle (s : Style)
| SetCustomStyle (s : jsstring)
| SetTextOverlay (s : jsstring)
| SetVibe (v : Vibe)
| SetCustomVibe (s : jsstring).

Definition apply_edit (e : AnswerEdit) (prev : FormAnswers) : FormAnswers :=
  match e with
  | SetCategory c =>
      mkAnswers c (customCategory prev) (style prev) (customStyle prev)
        (textOverlay prev) (vibe prev) (customVibe prev)
  | SetCustomCategory s =>
      mkAnswers (category prev) s (style prev) (customStyle prev)
        (textOverlay prev) (vibe prev) (customVibe prev)
  | SetStyle s =>
      mkAnswers (category prev) (customCategory prev) s (customStyle prev)
        (textOverlay prev) (vibe prev) (customVibe prev)
  | SetCustomStyle s =>
      mkAnswers (category prev) (customCategory prev) (style prev) s
        (textOverlay prev) (vibe prev) (customVibe prev)
  | SetTextOverlay s =>
      mkAnswers (category prev) (customCategory prev) (style prev)
        (customStyle prev) s (vibe prev) (customVibe prev)
  | SetVibe v =>
      mkAnswers (category prev) (customCategory prev) (style prev)
        (customStyle prev) (textOverlay prev) v (customVibe prev)
  | SetCustomVibe s =>
      mkAnswers (category prev) (customCategory prev) (style prev)
        (customStyle prev) (textOverlay prev) (vibe prev) s
  end.

Definition onAnswersChange (e : AnswerEdit) (p : PageState) : PageState :=
  with_answers (apply_edit e (answers p)) p.

Definition onFileChange (file : option File) (p : PageState) : PageState :=
  with_uploadFile file p.

Definition onClearHistory (p : PageState) : PageState :=
  with_thumbHistory None (with_history [] p).

Definition onSelectHistory (item : HistoryItem) (p : PageState) : PageState :=
  with_promptTouched true
    (with_prompt (item_prompt item)
       (with_answers (item_answers item)
          (with_imageUrl (data_url item) p))).

(** The prompt textarea's [onChange] and the "Sync prompt from answers"
    button. *)
Definition onPromptChange (value : jsstring) (p : PageState) : PageState :=
  with_promptTouched true (with_prompt value p).

Definition onSyncPrompt (p : PageState) : PageState :=
  with_promptTouched false (with_prompt (derivedPrompt p) p).

(** The effect keyed on [derivedPrompt]: when the derived prompt of the new
    render differs from the previous one and the prompt is untouched, the
    prompt follows it. *)
Definition syncEffect (before after : PageState) : PageState :=
  if negb (JS.eqb (derivedPrompt before) (derivedPrompt after))
     && negb (promptTouched after)
  then with_prompt (derivedPrompt after) after
  else after.

(** The page after mount: the stored history (when it parses) and the
    prefilled prompt. *)
Definition initialPage (stored : option (list HistoryItem)) : PageState :=
  {| answers := DEFAULT_ANSWERS;
     prompt := composePrompt DEFAULT_ANSWERS false;
     promptTouched := false;
     uploadFile := None;
     imageUrl := [];
     loading := false;
     error := [];
     history := match stored with Some h => h | None => [] end;
     lastRequestRef := None;
     thumbHistory := stored |}.

Inductive Event :=
| AnswersChange (e : AnswerEdit)
| FileChange (file : option File)
| PromptChange (value : jsstring)
| SyncPrompt
| SelectHistory (index : nat)
| ClearHistory
| Submit (env : Env)
| Regenerate (env : Env).

(** One user action: the page after it and the requests it issued. *)
Definition step (p : PageState) (ev : Event) : PageState * list Request :=
  match ev with
  | AnswersChange e => (syncEffect p (onAnswersChange e p), [])
  | FileChange file => (syncEffect p (onFileChange file p), [])
  | PromptChange value => (onPromptChange value p, [])
  | SyncPrompt => (onSyncPrompt p, [])
  | SelectHistory index =>
      match nth_error (history p) index with
      | Some item => (syncEffect p (onSelectHistory item p), [])
      | None => (p, [])
      end
  | ClearHistory => (onClearHistory p, [])
  | Submit env =>
      let st := fst (handleSubmit p env (mkHState p [])) in
      (page st, issued st)
  | Regenerate env =>
      let st := fst (handleRegenerate p env (mkHState p [])) in
      (page st, issued st)
  end.

(** A session: the page at its end and, per action, what was issued. *)
Fixpoint run (p : PageState) (evs : list Event) : PageState :=
  match evs with
  | [] => p
  | ev :: rest => run (fst (step p ev)) rest
  end.

(** The request of the most recent submission that issued one. *)
Fixpoint last_submitted (p : PageState) (evs : list Event)
    (acc : option Request) : option Request :=
  match evs with
  | [] => acc
  | ev :: rest =>
      let acc' :=
        match ev with
        | Submit _ =>
            match snd (step p ev) with
            | [] => acc
            | q :: _ => Some q
            end
        | _ => acc
        end in
      last_submitted (fst (step p ev)) rest acc'
  end.

(* ===================================================================== *)
(** ** The generate route handler *)
(* ===================================================================== *)

Module GenerateProxy.

(** The response of [ai.models.generateContent], every property optional
    as in the SDK's types. *)
Record Blob := mkBlob {
  data : option jsstring;
  mimeType : option jsstring
}.

Record Part := mkPart {
  inlineData : option Blob;
  part_text : option jsstring
}.

Record Content := mkContent { parts : option (list Part) }.

Record Candidate := mkCandidate { content : option Content }.

Record GenerateContentResponse := mkGenResponse {
  candidates : option (list Candidate)
}.

Inductive Body :=
| DataUrlBody (data_url : jsstring)
| ErrorBody (error : jsstring).

Record NextResponse := mkNextResponse { status : N; body : Body }.

(** [NextResponse.json(body)] and [NextResponse.json(body, {status})]. *)
Definition json_ok (b : Body) : NextResponse := mkNextResponse 200 b.
Definition json_status (b : Body) (s : N) : NextResponse :=
  mkNextResponse s b.

(** A value inside a template literal: [undefined] prints its name. *)
Definition interpolate (v : option jsstring) : jsstring :=
  match v with
  | Some s => s
  | None => lit "undefined"
  end.

(** [response.candidates?.[0]?.content?.parts]. *)
Definition first_parts (response : GenerateContentResponse)
  : option (list Part) :=
  match candidates response with
  | None => None
  | Some cs =>
      match nth_error cs 0 with
      | None => None
      | Some c =>
          match content c with
          | None => None
          | Some ct => parts ct
          end
      end
  end.

(** The [for (const part of parts)] loop: the response it returns, if
    any. *)
Fixpoint scan (ps : list Part) : option NextResponse :=
  match ps with
  | [] => None
  | part :: rest =>
      match inlineData part with
      | Some blob =>
          Some (json_ok (DataUrlBody
                  (lit "data:image/png;base64," ++ interpolate (data blob))))
      | None => scan rest
      end
  end.

(** The [try] body once the upstream call has resolved. *)
Definition respond (response : GenerateContentResponse) : NextResponse :=
  let no_image := json_status (ErrorBody (lit "No image returned")) 500 in
  match first_parts response with
  | Some ps =>
      match scan ps with
      | Some r => r
      | None => no_image
      end
  | None => no_image
  end.

(** [await req.json()] destructured: it throws, or gives [prompt]
    ([None] when the body has none). *)
Inductive RequestJson :=
| BodyThrows (message : jsstring)
| BodyValue (prompt : option jsstring).

(** The upstream call: it resolves, or throws; [message] is
    [err instanceof Error ? err.message : String(err)]. *)
Inductive CallOutcome :=
| Resolves (response : GenerateContentResponse)
| Rejects (message : jsstring).

Definition server_error (message : jsstring) : NextResponse :=
  json_status (ErrorBody (or_else message (lit "Server error"))) 500.

Definition POST (req : RequestJson)
    (generateContent : option jsstring -> CallOutcome) : NextResponse :=
  match req with
  | BodyThrows message => server_error message
  | BodyValue prompt =>
      match generateContent prompt with
      | Resolves response => respond response
      | Rejects message => server_error message
      end
  end.

(** The parts of the first candidate, none when any link is missing. *)
Definition first_candidate_parts (response : GenerateContentResponse)
  : list Part :=
  match first_parts response with
  | Some ps => ps
  | None => []
  end.

End GenerateProxy.

(* ===================================================================== *)
(** ** Specification-side notions and sample data *)
(* ===================================================================== *)

(** The answers of the specification's example. *)
Definition example_answers : FormAnswers :=
  {| category := Tech; customCategory := [];
     style := Minimal; customStyle := [];
     textOverlay := [];
     vibe := Bright; customVibe := [] |}.

(** Answers whose three enum fields are on their escape value and whose
    free-text fields hold two spaces each. *)
Definition blank_custom_answers : FormAnswers :=
  {| category := Other; customCategory := [32; 32]%N;
     style := Custom_style; customStyle := [32; 32]%N;
     textOverlay := [];
     vibe := Custom_vibe; customVibe := [32; 32]%N |}.

(** The data URL a response delivers: a 2xx response whose JSON body
    carries a non-empty [data_url]. *)
Definition delivered (env : Env) : option jsstring :=
  match fetchOutcome env with
  | FetchRejects _ => None
  | FetchResolves res =>
      if ok res then
        match json res with
        | JsonValue (Some url) => if truthy url then Some url else None
        | _ => None
        end
      else None
  end.

Ltac unfold_handler :=
  unfold handleSubmit, handleRegenerate, activePrompt, receive, try_finally, try_catch,
    bind, fetch, fileToBase64, res_json, addToHistory, setError, setLoading,
    setImageUrl, setLastRequestRef, getLastRequestRef, update, throw, ret.

Ltac case_env env :=
  destruct (fetchOutcome env) as [?message | [[|] ?t [?message | [[|?c ?url] |]]]];
  simpl.

(** The request a submission remembers and sends, when it gets that far:
    none when validation fails or the file cannot be read. *)
Definition submit_request (snap : PageState) : option LastRequest :=
  match activePrompt snap with
  | [] => None
  | _ :: _ =>
      match uploadFile snap with
      | None => Some (mkLast ApiGenerate (GeneratePayload (activePrompt snap)))
      | Some file =>
          match file_dataURL file with
          | None => None
          | Some dataUrl =>
              Some (mkLast ApiEdit
                      (EditPayload (activePrompt snap)
                         (match split_comma_1 dataUrl with
                          | Some b => b
                          | None => []
                          end)
                         (or_else (file_type file) (lit "image/png"))))
          end
      end
  end.

(** The paths of a submission: validation fails; the upload cannot be
    read; the upload is read; there is no upload. *)
Ltac submit_paths p :=
  unfold step; cbn [fst snd];
  try unfold submit_request in *; try unfold activePrompt in *;
  unfold_handler;
  destruct (trim (or_else (prompt p) (derivedPrompt p))) as [|c0 ap0]
    eqn:Eactive;
  simpl in *;
  [| destruct (uploadFile p) as [file0|] eqn:Eupload; simpl in *;
     [destruct (file_dataURL file0) as [dataUrl0|] eqn:Eread; simpl in *|]].

Ltac regenerate_paths p :=
  unfold step; cbn [fst snd]; unfold_handler; simpl;
  destruct (lastRequestRef p) as [lr0|] eqn:Elast; simpl in *.

Ltac close_fields :=
  repeat split; reflexivity || assumption || (symmetry; assumption).

(** A page whose prompt field holds one space, and an environment that
    would deliver an image. *)
Definition blank_prompt_page : PageState :=
  onPromptChange [32%N] (initialPage None).

Definition delivering_env : Env :=
  mkEnv (FetchResolves
           (mkResponse true None (JsonValue (Some (lit "data:image/png;base64,AAAA")))))
    1700000000000 true.

(** A response body of 301 code units, in a non-2xx response. *)
Definition long_body : jsstring := repeat 97%N 301.

Definition failing_env : Env :=
  mkEnv (FetchResolves (mkResponse false (Some long_body) (JsonThrows [])))
    1700000000000 true.

Definition quota_env : Env :=
  mkEnv (FetchResolves
           (mkResponse false (Some (lit "quota exceeded")) (JsonThrows [])))
    1700000000000 true.

Definition earlier_item : HistoryItem :=
  mkItem (lit "data:image/png;base64,BBBB") (lit "an earlier prompt")
    DEFAULT_ANSWERS 1600000000000.

(** A session: one submission, then the prompt field is blanked. *)
Definition blanked_session : list Event :=
  [Submit delivering_env; PromptChange [32%N]].

Definition first_request : LastRequest :=
  mkLast ApiGenerate (GeneratePayload (composePrompt DEFAULT_ANSWERS false)).

Module GenerateProxySamples.
Import GenerateProxy.

(** An upstream answer: a text part, then two image parts. *)
Definition text_then_images : GenerateContentResponse :=
  mkGenResponse
    (Some [mkCandidate
             (Some (mkContent
                (Some [mkPart None (Some (lit "Here is your thumbnail"));
                       mkPart (Some (mkBlob (Some (lit "AAAA"))
                                       (Some (lit "image/png")))) None;
                       mkPart (Some (mkBlob (Some (lit "BBBB"))
                                       (Some (lit "image/png")))) None])))]).

Definition text_only : GenerateContentResponse :=
  mkGenResponse
    (Some [mkCandidate
             (Some (mkContent
                (Some [mkPart None (Some (lit "I cannot draw that"))])))]).

End GenerateProxySamples.

(* ===================================================================== *)
(** ** The rest of the page: button label, upload preview, stored history *)
(* ===================================================================== *)

(** The sentence [composePrompt] pushes when [hasImage] holds. *)
Definition reference_clause : jsstring :=
  lit "Use the uploaded reference image as visual guidance.".

(** [uploadFile ? "Edit Image" : "Generate Image"]. *)
Definition primaryButtonLabel (p : PageState) : jsstring :=
  match uploadFile p with
  | Some _ => lit "Edit Image"
  | None => lit "Generate Image"
  end.



Definition all_white_space (s : jsstring) : bool :=
  forallb is_white_space s.

Definition has_comma (s : jsstring) : bool :=
  existsb (N.eqb 44) s.

(** The preview of the upload.  Object URLs are numbered in creation
    order; [live] holds the ones created and not yet revoked. *)
Record PreviewState := mkPreview {
  uploadPreview : option N;
  live : list N;
  next_url : N
}.

(** [URL.revokeObjectURL(u)]: nothing happens when [u] is not live. *)
Definition revokeObjectURL (u : N) (s : PreviewState) : PreviewState :=
  mkPreview (uploadPreview s)
    (filter (fun v => negb (N.eqb v u)) (live s)) (next_url s).

(** [URL.createObjectURL(file)]: a URL that was never handed out. *)
Definition createObjectURL (s : PreviewState) : N * PreviewState :=
  (next_url s,
   mkPreview (uploadPreview s) (next_url s :: live s) (N.succ (next_url s))).

Definition setUploadPreview (u : option N) (s : PreviewState)
  : PreviewState :=
  mkPreview u (live s) (next_url s).

(** The preview half of [onFileChange]; [closurePreview] is the
    [uploadPreview] of the render the handler closes over. *)
Definition onFileChange_preview (closurePreview : option N)
    (file : option File) (s : PreviewState) : PreviewState :=
  let s1 :=
    match closurePreview with
    | Some u => setUploadPreview None (revokeObjectURL u s)
    | None => s
    end in
  match file with
  | Some _ =>
      let (url, s2) := createObjectURL s1 in
      setUploadPreview (Some url) s2
  | None => s1
  end.

(** The cleanup of the effect keyed on [uploadPreview]: it revokes the
    preview of the render it was created in, when the preview changes. *)
Definition previewCleanup (before : option N) (s : PreviewState)
  : PreviewState :=
  match before with
  | Some u => revokeObjectURL u s
  | None => s
  end.

(** The dependency test of the effect on two successive previews. *)
Definition same_preview (a b : option N) : bool :=
  match a, b with
  | None, None => true
  | Some x, Some y => N.eqb x y
  | _, _ => false
  end.

(** One file selection: the handler, then the effect cleanup of the
    previous render when the preview changed. *)
Definition file_step (s : PreviewState) (file : option File)
  : PreviewState :=
  let s' := onFileChange_preview (uploadPreview s) file s in
  if same_preview (uploadPreview s) (uploadPreview s')
  then s'
  else previewCleanup (uploadPreview s) s'.

Fixpoint file_run (s : PreviewState) (files : list (option File))
  : PreviewState :=
  match files with
  | [] => s
  | file :: rest => file_run (file_step s file) rest
  end.

Definition initialPreview : PreviewState := mkPreview None [] 0.

(** What holds of a remembered request: its prompt is not empty and is
    already trimmed, and its payload has the shape of its route. *)
Definition remembered_ok (lr : LastRequest) : Prop :=
  payload_prompt (payload lr) <> []
  /\ trim (payload_prompt (payload lr)) = payload_prompt (payload lr)
  /\ match route lr, payload lr with
     | ApiGenerate, GeneratePayload _ => True
     | ApiEdit, EditPayload _ base64Image _ => has_comma base64Image = false
     | _, _ => False
     end.

(** Sample data. *)
Definition png_file : File :=
  mkFile (lit "image/png") (Some (lit "data:image/png;base64,iVBORw0KGgo=")).

Definition unreadable_file : File := mkFile (lit "image/png") None.

Definition untyped_file : File :=
  mkFile [] (Some (lit "data:;base64,AAAA")).

Definition offline_env : Env :=
  mkEnv (FetchRejects (lit "Failed to fetch")) 1700000000000 true.

Definition no_url_env : Env :=
  mkEnv (FetchResolves (mkResponse true None (JsonValue None)))
    1700000000000 true.

Definition full_storage_env : Env :=
  mkEnv (FetchResolves
           (mkResponse true None
              (JsonValue (Some (lit "data:image/png;base64,CCCC")))))
    1700000000001 false.

Definition custom_answers : FormAnswers :=
  {| category := Other; customCategory := lit " Travel ";
     style := Custom_style; customStyle := lit "Retro";
     textOverlay := lit "5 Tips";
     vibe := Custom_vibe; customVibe := lit "Sepia" |}.

(* ===================================================================== *)
(** ** Facts about strings *)
(* ===================================================================== *)

Lemma truthy_nonempty (s : jsstring) : truthy s = true <-> s <> [].
Proof.
  destruct s; simpl; split; intro H;
    congruence || discriminate || reflexivity.
Qed.

Lemma trim_nil : trim [] = [].
Proof. reflexivity. Qed.

Lemma trim_nonempty_source (s : jsstring) : trim s <> [] -> s <> [].
Proof. intros H E. subst s. apply H, trim_nil. Qed.

(** Joining with one more part at the end. *)
Lemma join_snoc (sep : jsstring) (xs : list jsstring) (x : jsstring) :
  xs <> [] -> join sep (xs ++ [x]) = join sep xs ++ sep ++ x.
Proof.
  induction xs as [|p rest IH]; intro Hne; [congruence|].
  destruct rest as [|p' rest'].
  - reflexivity.
  - change (join sep ((p :: p' :: rest') ++ [x]))
      with (p ++ sep ++ join sep ((p' :: rest') ++ [x])).
    rewrite IH by discriminate.
    change (join sep (p :: p' :: rest'))
      with (p ++ sep ++ join sep (p' :: rest')).
    rewrite <- !app_assoc. reflexivity.
Qed.

Lemma eqb_eq (a b : jsstring) : JS.eqb a b = true <-> a = b.
Proof.
  revert b. induction a as [|x a IH]; intros [|y b]; simpl;
    try (split; [discriminate | congruence]); [tauto|].
  rewrite andb_true_iff, N.eqb_eq, IH.
  split; [intros [-> ->]; reflexivity | intro E; inversion E; auto].
Qed.

Lemma truncate_short (s : jsstring) (n : nat) :
  List.length s <= n -> truncate s n = s.
Proof.
  intro H. unfold truncate.
  destruct (Nat.ltb_spec n (List.length s)); [lia | reflexivity].
Qed.

Lemma truncate_long (s : jsstring) (n : nat) :
  n < List.length s -> truncate s n = firstn n s ++ [ellipsis].
Proof.
  intro H. unfold truncate, slice0.
  destruct (Nat.ltb_spec n (List.length s)); [reflexivity | lia].
Qed.

Lemma truncate_length (s : jsstring) (n : nat) :
  List.length (truncate s n) <= S n.
Proof.
  destruct (Nat.le_gt_cases (List.length s) n) as [H|H].
  - rewrite truncate_short by assumption. lia.
  - rewrite truncate_long by assumption.
    rewrite length_app, length_firstn. simpl. lia.
Qed.

(* ===================================================================== *)
(** ** Properties of composePrompt *)
(* ===================================================================== *)

(** C7. For the answers Tech / Minimal / Bright with every free-text field
    empty and no upload, [composePrompt] returns exactly the sentence of the
    specification. *)
Theorem composePrompt_example :
  composePrompt example_answers false
  = lit "Category: Tech. Style: Minimal. Colors/Vibe: Bright. No text overlay. 16:9 thumbnail composition, high contrast, no watermarks, suitable for social/YouTube.".
Proof. vm_compute. reflexivity. Qed.

(** C8. The fourth part of the prompt is the overlay clause, and it is
    [Include text overlay: "<trimmed text>".] when the overlay field trims to
    a non-empty string and [No text overlay.] otherwise. *)
Theorem overlay_clause (a : FormAnswers) (hasImage : bool) :
  nth_error (composeParts a hasImage) 3 = Some (overlay a)
  /\ overlay a
     = match trim (textOverlay a) with
       | [] => lit "No text overlay."
       | _ :: _ =>
           lit "Include text overlay: " ++ [dquote]
             ++ trim (textOverlay a) ++ [dquote] ++ lit "."
       end.
Proof.
  split; [reflexivity|].
  unfold overlay.
  destruct (trim (textOverlay a)) as [|c t] eqn:Etrim.
  - rewrite andb_false_r. reflexivity.
  - assert (Hsrc : textOverlay a <> [])
      by (apply trim_nonempty_source; rewrite Etrim; discriminate).
    apply truthy_nonempty in Hsrc. rewrite Hsrc. reflexivity.
Qed.

(** C9. Whatever the answers and the reference-image flag, the prompt ends
    with the fixed guidelines clause (which is also the last part). *)
Theorem composePrompt_ends_with_guidelines (a : FormAnswers) (hasImage : bool) :
  exists front : jsstring,
    composePrompt a hasImage
    = front ++ lit "16:9 thumbnail composition, high contrast, no watermarks, suitable for social/YouTube."
    /\ last (composeParts a hasImage) []
       = lit "16:9 thumbnail composition, high contrast, no watermarks, suitable for social/YouTube.".
Proof.
  unfold composePrompt, composeParts.
  rewrite app_assoc.
  eexists. split.
  - rewrite join_snoc by (destruct hasImage; discriminate).
    rewrite app_assoc. reflexivity.
  - rewrite last_last. reflexivity.
Qed.

(** C1, as stated, fails: with whitespace-only free text the clauses carry
    the whitespace, not the escape label. *)
Lemma whitespace_custom_not_label :
  category blank_custom_answers = Other
  /\ trim (customCategory blank_custom_answers) = []
  /\ nth_error (composeParts blank_custom_answers false) 0
     = Some (lit "Category:   .")
  /\ nth_error (composeParts blank_custom_answers false) 0
     <> Some (lit "Category: Other.")
  /\ nth_error (composeParts blank_custom_answers false) 1
     <> Some (lit "Style: Custom.")
  /\ nth_error (composeParts blank_custom_answers false) 2
     <> Some (lit "Colors/Vibe: Custom.").
Proof. vm_compute. repeat split; discriminate. Qed.

(** C1, amended. When an enum field is on its escape value and the matching
    free-text field is the empty string, the clause carries the escape
    label. *)
Theorem empty_custom_falls_back (a : FormAnswers) (hasImage : bool) :
  (category a = Other -> customCategory a = [] ->
   nth_error (composeParts a hasImage) 0 = Some (lit "Category: Other."))
  /\ (style a = Custom_style -> customStyle a = [] ->
      nth_error (composeParts a hasImage) 1 = Some (lit "Style: Custom."))
  /\ (vibe a = Custom_vibe -> customVibe a = [] ->
      nth_error (composeParts a hasImage) 2
      = Some (lit "Colors/Vibe: Custom.")).
Proof.
  repeat split; intros Henum Hfree; simpl;
    unfold categoryText, styleText, vibeText;
    rewrite Henum, Hfree; reflexivity.
Qed.

Lemma empty_custom_falls_back_witness :
  nth_error
    (composeParts (mkAnswers Other [] Custom_style [] [] Custom_vibe []) true) 0
  = Some (lit "Category: Other.")
  /\ nth_error
       (composeParts (mkAnswers Other [] Custom_style [] [] Custom_vibe []) true) 1
     = Some (lit "Style: Custom.")
  /\ nth_error
       (composeParts (mkAnswers Other [] Custom_style [] [] Custom_vibe []) true) 2
     = Some (lit "Colors/Vibe: Custom.").
Proof.
  destruct (empty_custom_falls_back
              (mkAnswers Other [] Custom_style [] [] Custom_vibe []) true)
    as (Hc & Hs & Hv).
  split; [|split].
  - apply Hc; reflexivity.
  - apply Hs; reflexivity.
  - apply Hv; reflexivity.
Defined.

(* ===================================================================== *)
(** ** Running the handlers *)
(* ===================================================================== *)

(** A submission that fails validation: nothing but the error changes. *)
Lemma handleSubmit_invalid (snap : PageState) (env : Env) (st : HState) :
  activePrompt snap = [] ->
  fst (handleSubmit snap env st)
  = mkHState
      (with_error
         (lit "Please provide a prompt or complete the guided answers.")
         (with_error [] (page st)))
      (issued st).
Proof.
  unfold activePrompt. intro H. unfold_handler. rewrite H. reflexivity.
Qed.

Lemma handleSubmit_issued (snap : PageState) (env : Env) (st : HState) :
  issued (fst (handleSubmit snap env st))
  = issued st
    ++ match submit_request snap with
       | Some lr => [request_of lr]
       | None => []
       end.
Proof.
  unfold submit_request, activePrompt. unfold_handler.
  destruct (trim (or_else (prompt snap) (derivedPrompt snap))) as [|c ap];
    simpl; [rewrite app_nil_r; reflexivity|].
  destruct (uploadFile snap) as [file|]; simpl.
  - destruct (file_dataURL file) as [dataUrl|]; simpl;
      [|rewrite app_nil_r; reflexivity].
    destruct (split_comma_1 dataUrl) as [[|b0 b]|]; simpl;
      case_env env; reflexivity.
  - case_env env; reflexivity.
Qed.

Lemma handleSubmit_lastRequestRef (snap : PageState) (env : Env)
    (st : HState) :
  lastRequestRef (page (fst (handleSubmit snap env st)))
  = match submit_request snap with
    | Some lr => Some lr
    | None => lastRequestRef (page st)
    end.
Proof.
  unfold submit_request, activePrompt. unfold_handler.
  destruct (trim (or_else (prompt snap) (derivedPrompt snap))) as [|c ap];
    simpl; [reflexivity|].
  destruct (uploadFile snap) as [file|]; simpl.
  - destruct (file_dataURL file) as [dataUrl|]; simpl; [|reflexivity].
    destruct (split_comma_1 dataUrl) as [[|b0 b]|]; simpl;
      case_env env; try destruct (storageWritable env); reflexivity.
  - case_env env; try destruct (storageWritable env); reflexivity.
Qed.

(** The history after a submission: one item more at the front when a
    request went out and its response delivered a data URL, the same
    sequence otherwise. *)
Lemma handleSubmit_history (snap : PageState) (env : Env) (st : HState) :
  history (page (fst (handleSubmit snap env st)))
  = match submit_request snap, delivered env with
    | Some _, Some url =>
        mkItem url (activePrompt snap) (answers snap) (now env)
        :: history (page st)
    | _, _ => history (page st)
    end.
Proof.
  unfold submit_request, delivered, activePrompt. unfold_handler.
  destruct (trim (or_else (prompt snap) (derivedPrompt snap))) as [|c ap];
    simpl; [reflexivity|].
  destruct (uploadFile snap) as [file|]; simpl.
  - destruct (file_dataURL file) as [dataUrl|]; simpl; [|reflexivity].
    destruct (split_comma_1 dataUrl) as [[|b0 b]|]; simpl;
      case_env env; destruct (storageWritable env); reflexivity.
  - case_env env; destruct (storageWritable env); reflexivity.
Qed.

Lemma handleRegenerate_issued (snap : PageState) (env : Env) (st : HState) :
  issued (fst (handleRegenerate snap env st))
  = issued st
    ++ match lastRequestRef (page st) with
       | Some lr => [request_of lr]
       | None => []
       end.
Proof.
  unfold_handler.
  destruct (lastRequestRef (page st)) as [lr|]; simpl;
    [|rewrite app_nil_r; reflexivity].
  case_env env; reflexivity.
Qed.

Lemma handleRegenerate_lastRequestRef (snap : PageState) (env : Env)
    (st : HState) :
  lastRequestRef (page (fst (handleRegenerate snap env st)))
  = lastRequestRef (page st).
Proof.
  unfold_handler.
  destruct (lastRequestRef (page st)) as [lr|] eqn:E; simpl; [|assumption].
  case_env env; try destruct (storageWritable env); assumption.
Qed.

Lemma handleRegenerate_history (snap : PageState) (env : Env) (st : HState) :
  history (page (fst (handleRegenerate snap env st)))
  = match lastRequestRef (page st), delivered env with
    | Some lr, Some url =>
        mkItem url (payload_prompt (payload lr)) (answers snap) (now env)
        :: history (page st)
    | _, _ => history (page st)
    end.
Proof.
  unfold delivered. unfold_handler.
  destruct (lastRequestRef (page st)) as [lr|]; simpl; [|reflexivity].
  case_env env; destruct (storageWritable env); reflexivity.
Qed.

(** The error a request leaves when the response is not 2xx. *)
Lemma handleSubmit_http_error (snap : PageState) (env : Env) (st : HState)
    (lr : LastRequest) (res : Response) :
  submit_request snap = Some lr ->
  fetchOutcome env = FetchResolves res ->
  ok res = false ->
  safeReadText res <> [] ->
  error (page (fst (handleSubmit snap env st)))
  = failure_message
      (match route lr with
       | ApiEdit => lit "Edit request failed. "
       | ApiGenerate => lit "Generate request failed. "
       end)
      (safeReadText res).
Proof.
  unfold submit_request, activePrompt. unfold_handler.
  intros Hreq Hfetch Hok Hbody.
  destruct (trim (or_else (prompt snap) (derivedPrompt snap))) as [|c ap];
    simpl in *; [discriminate|].
  rewrite Hfetch.
  destruct (uploadFile snap) as [file|]; simpl in *.
  - destruct (file_dataURL file) as [dataUrl|]; simpl in *; [|discriminate].
    injection Hreq as <-. simpl. rewrite Hok. simpl.
    destruct (safeReadText res); [congruence | reflexivity].
  - injection Hreq as <-. simpl. rewrite Hok. simpl.
    destruct (safeReadText res); [congruence | reflexivity].
Qed.

Lemma handleRegenerate_http_error (snap : PageState) (env : Env)
    (st : HState) (lr : LastRequest) (res : Response) :
  lastRequestRef (page st) = Some lr ->
  fetchOutcome env = FetchResolves res ->
  ok res = false ->
  safeReadText res <> [] ->
  error (page (fst (handleRegenerate snap env st)))
  = failure_message (lit "Regenerate failed. ") (safeReadText res).
Proof.
  unfold_handler. intros Hlast Hfetch Hok Hbody.
  rewrite Hlast, Hfetch. simpl. rewrite Hok. simpl.
  destruct (safeReadText res); [congruence | reflexivity].
Qed.

(* ===================================================================== *)
(** ** Validation, failure messages and the history *)
(* ===================================================================== *)

(** C5. When the effective prompt (the manual text, or the derived prompt
    when the manual text is empty) trims to the empty string, [handleSubmit]
    issues no request and sets the validation message; the remembered
    request and the history stay as they were. *)
Theorem empty_prompt_blocks_submit (snap : PageState) (env : Env)
    (st : HState) :
  trim (or_else (prompt snap) (derivedPrompt snap)) = [] ->
  issued (fst (handleSubmit snap env st)) = issued st
  /\ snd (step snap (Submit env)) = []
  /\ error (page (fst (handleSubmit snap env st)))
     = lit "Please provide a prompt or complete the guided answers."
  /\ lastRequestRef (page (fst (handleSubmit snap env st)))
     = lastRequestRef (page st)
  /\ history (page (fst (handleSubmit snap env st))) = history (page st).
Proof.
  intro H. unfold step.
  rewrite !handleSubmit_invalid by exact H.
  repeat split; reflexivity.
Qed.

Lemma empty_prompt_blocks_submit_witness :
  snd (step blank_prompt_page (Submit delivering_env)) = []
  /\ error (fst (step blank_prompt_page (Submit delivering_env)))
     = lit "Please provide a prompt or complete the guided answers.".
Proof.
  destruct (empty_prompt_blocks_submit blank_prompt_page delivering_env
              (mkHState blank_prompt_page []))
    as (_ & Hnone & Herr & _).
  - vm_compute. reflexivity.
  - split; [exact Hnone | exact Herr].
Defined.

(** C2, as stated, fails: a body of 301 code units yields a detail of 301
    code units, the first 300 of the body and the ellipsis. *)
Lemma detail_of_301_code_units :
  error (fst (step (initialPage None) (Submit failing_env)))
  = lit "Generate request failed. Details: "
    ++ truncate long_body 300
  /\ truncate long_body 300 = repeat 97%N 300 ++ [ellipsis]
  /\ List.length (truncate long_body 300) = 301
  /\ ~ List.length (truncate long_body 300) <= 300.
Proof.
  assert (Hlen : List.length (truncate long_body 300) = 301)
    by (vm_compute; reflexivity).
  split; [vm_compute; reflexivity|].
  split; [vm_compute; reflexivity|].
  split; [exact Hlen | rewrite Hlen; lia].
Qed.

(** C2, amended. After a non-2xx response whose body text is not empty, the
    message is the generic one followed by [Details: ] and a detail that is
    the body itself when it has at most 300 code units, and otherwise its
    first 300 code units followed by an ellipsis: at most 301 code units. *)
Theorem http_failure_detail (p : PageState) (env : Env) (res : Response)
    (details : jsstring) :
  fetchOutcome env = FetchResolves res ->
  ok res = false ->
  text res = Some details ->
  details <> [] ->
  exists d : jsstring,
    List.length d <= 301
    /\ (List.length details <= 300 -> d = details)
    /\ (300 < List.length details -> d = firstn 300 details ++ [ellipsis])
    /\ (forall lr, submit_request p = Some lr ->
        error (fst (step p (Submit env)))
        = match route lr with
          | ApiEdit => lit "Edit request failed. "
          | ApiGenerate => lit "Generate request failed. "
          end ++ lit "Details: " ++ d)
    /\ (forall lr, lastRequestRef p = Some lr ->
        error (fst (step p (Regenerate env)))
        = lit "Regenerate failed. " ++ lit "Details: " ++ d).
Proof.
  intros Hfetch Hok Htext Hne.
  assert (Hread : safeReadText res = details)
    by (unfold safeReadText; rewrite Htext; reflexivity).
  assert (Hmsg : forall headline,
             failure_message headline details
             = headline ++ lit "Details: " ++ truncate details 300).
  { intro headline. unfold failure_message.
    apply truthy_nonempty in Hne. rewrite Hne. reflexivity. }
  exists (truncate details 300).
  split; [apply truncate_length|].
  split; [apply truncate_short|].
  split; [apply truncate_long|].
  split; intros lr Hlr; unfold step; cbn [fst].
  - rewrite (handleSubmit_http_error p env _ Hlr Hfetch Hok)
      by (rewrite Hread; exact Hne).
    rewrite Hread. apply Hmsg.
  - rewrite (@handleRegenerate_http_error p env (mkHState p []) lr res
               Hlr Hfetch Hok) by (rewrite Hread; exact Hne).
    rewrite Hread. apply Hmsg.
Qed.

Lemma http_failure_detail_witness :
  exists d : jsstring,
    List.length d <= 301
    /\ (List.length (lit "quota exceeded") <= 300 -> d = lit "quota exceeded")
    /\ (300 < List.length (lit "quota exceeded") ->
        d = firstn 300 (lit "quota exceeded") ++ [ellipsis])
    /\ (forall lr, submit_request (initialPage None) = Some lr ->
        error (fst (step (initialPage None) (Submit quota_env)))
        = match route lr with
          | ApiEdit => lit "Edit request failed. "
          | ApiGenerate => lit "Generate request failed. "
          end ++ lit "Details: " ++ d)
    /\ (forall lr, lastRequestRef (initialPage None) = Some lr ->
        error (fst (step (initialPage None) (Regenerate quota_env)))
        = lit "Regenerate failed. " ++ lit "Details: " ++ d).
Proof.
  apply (@http_failure_detail (initialPage None) quota_env
           (mkResponse false (Some (lit "quota exceeded")) (JsonThrows []))
           (lit "quota exceeded")).
  - reflexivity.
  - reflexivity.
  - reflexivity.
  - discriminate.
Defined.

(** C6. Whatever the history was, a request whose response delivers an
    image leaves the new item in front of it, the earlier items after it
    in their order; a request that fails, and a submission that sends no
    request, leave the history as it was.  This holds for a submission and
    for a regeneration. *)
Theorem history_after_request (snap : PageState) (env : Env) (st : HState) :
  (forall lr url,
     submit_request snap = Some lr -> delivered env = Some url ->
     history (page (fst (handleSubmit snap env st)))
     = mkItem url (activePrompt snap) (answers snap) (now env)
       :: history (page st))
  /\ (delivered env = None ->
      history (page (fst (handleSubmit snap env st))) = history (page st))
  /\ (submit_request snap = None ->
      history (page (fst (handleSubmit snap env st))) = history (page st))
  /\ (forall lr url,
        lastRequestRef (page st) = Some lr -> delivered env = Some url ->
        history (page (fst (handleRegenerate snap env st)))
        = mkItem url (payload_prompt (payload lr)) (answers snap) (now env)
          :: history (page st))
  /\ (delivered env = None ->
      history (page (fst (handleRegenerate snap env st)))
      = history (page st)).
Proof.
  repeat split.
  - intros lr url Hreq Hdel.
    rewrite handleSubmit_history, Hreq, Hdel. reflexivity.
  - intro Hdel. rewrite handleSubmit_history, Hdel.
    destruct (submit_request snap); reflexivity.
  - intro Hreq. rewrite handleSubmit_history, Hreq. reflexivity.
  - intros lr url Hlast Hdel.
    rewrite handleRegenerate_history, Hlast, Hdel. reflexivity.
  - intro Hdel. rewrite handleRegenerate_history, Hdel.
    destruct (lastRequestRef (page st)); reflexivity.
Qed.

Lemma history_after_request_witness :
  history (fst (step (initialPage (Some [earlier_item])) (Submit delivering_env)))
  = [mkItem (lit "data:image/png;base64,AAAA")
       (composePrompt DEFAULT_ANSWERS false) DEFAULT_ANSWERS 1700000000000;
     earlier_item]
  /\ history (fst (step (initialPage (Some [earlier_item])) (Submit failing_env)))
     = [earlier_item].
Proof.
  pose (p := initialPage (Some [earlier_item])).
  destruct (history_after_request p delivering_env (mkHState p []))
    as (Hok & _).
  destruct (history_after_request p failing_env (mkHState p []))
    as (_ & Hfail & _).
  split.
  - apply (Hok (mkLast ApiGenerate
                  (GeneratePayload (composePrompt DEFAULT_ANSWERS false)))
             (lit "data:image/png;base64,AAAA")).
    + vm_compute. reflexivity.
    + reflexivity.
  - apply Hfail. reflexivity.
Defined.

(* ===================================================================== *)
(** ** Regeneration *)
(* ===================================================================== *)

Lemma lastRequestRef_syncEffect (before after : PageState) :
  lastRequestRef (syncEffect before after) = lastRequestRef after.
Proof.
  unfold syncEffect.
  destruct (negb (JS.eqb (derivedPrompt before) (derivedPrompt after))
            && negb (promptTouched after)); reflexivity.
Qed.

Lemma step_submit_lastRequestRef (p : PageState) (env : Env) :
  lastRequestRef (fst (step p (Submit env)))
  = match submit_request p with
    | Some lr => Some lr
    | None => lastRequestRef p
    end.
Proof. unfold step. cbn [fst]. apply handleSubmit_lastRequestRef. Qed.

Lemma step_submit_issued (p : PageState) (env : Env) :
  snd (step p (Submit env))
  = match submit_request p with
    | Some lr => [request_of lr]
    | None => []
    end.
Proof. unfold step. cbn [snd]. apply handleSubmit_issued. Qed.

Lemma step_regenerate_issued (p : PageState) (env : Env) :
  snd (step p (Regenerate env))
  = match lastRequestRef p with
    | Some lr => [request_of lr]
    | None => []
    end.
Proof. unfold step. cbn [snd]. apply handleRegenerate_issued. Qed.

(** Only a submission changes the remembered request. *)
Lemma step_keeps_lastRequestRef (p : PageState) (ev : Event) :
  (forall env, ev <> Submit env) ->
  lastRequestRef (fst (step p ev)) = lastRequestRef p.
Proof.
  intro Hev. destruct ev as [e|file|value| |index| |env|env]; cbn [step fst].
  - rewrite lastRequestRef_syncEffect. reflexivity.
  - rewrite lastRequestRef_syncEffect. reflexivity.
  - reflexivity.
  - reflexivity.
  - destruct (nth_error (history p) index); cbn [fst];
      [rewrite lastRequestRef_syncEffect|]; reflexivity.
  - reflexivity.
  - exfalso. apply (Hev env). reflexivity.
  - apply handleRegenerate_lastRequestRef.
Qed.

(** Along a session the remembered request is the one the most recent
    submission sent. *)
Lemma remembered_is_last_submitted (evs : list Event) :
  forall (p : PageState) (acc : option Request),
    option_map request_of (lastRequestRef p) = acc ->
    option_map request_of (lastRequestRef (run p evs))
    = last_submitted p evs acc.
Proof.
  induction evs as [|ev rest IH]; intros p acc Hacc; [exact Hacc|].
  cbn [run last_submitted]. apply IH.
  destruct ev as [e|file|value| |index| |env|env];
    try (rewrite step_keeps_lastRequestRef by discriminate; exact Hacc).
  rewrite step_submit_lastRequestRef, step_submit_issued.
  destruct (submit_request p) as [lr|]; [reflexivity | exact Hacc].
Qed.

(** C4. In a session that has a remembered request, [handleRegenerate]
    issues exactly one request, to the route and with the body of the
    request the most recent submission issued; it does so whatever the rest
    of the page holds, the prompt included: nothing is validated. *)
Theorem regenerate_reissues_last_submission
    (stored : option (list HistoryItem)) (evs : list Event) (env : Env)
    (lr : LastRequest) :
  lastRequestRef (run (initialPage stored) evs) = Some lr ->
  last_submitted (initialPage stored) evs None = Some (request_of lr)
  /\ snd (step (run (initialPage stored) evs) (Regenerate env))
     = [mkRequest (route lr) (JSON_stringify (payload lr))]
  /\ (forall p' : PageState,
        lastRequestRef p' = Some lr ->
        snd (step p' (Regenerate env))
        = [mkRequest (route lr) (JSON_stringify (payload lr))]).
Proof.
  intro Hlast. split; [|split].
  - rewrite <- (@remembered_is_last_submitted evs (initialPage stored) None)
      by reflexivity.
    rewrite Hlast. reflexivity.
  - rewrite step_regenerate_issued, Hlast. reflexivity.
  - intros p' Hp'. rewrite step_regenerate_issued, Hp'. reflexivity.
Qed.

Lemma regenerate_reissues_last_submission_witness :
  last_submitted (initialPage None) blanked_session None
  = Some (request_of first_request)
  /\ snd (step (run (initialPage None) blanked_session)
            (Regenerate delivering_env))
     = [mkRequest ApiGenerate (JSON_stringify (payload first_request))]
  /\ snd (step (run (initialPage None) blanked_session)
            (Submit delivering_env)) = [].
Proof.
  destruct (@regenerate_reissues_last_submission None blanked_session
              delivering_env first_request)
    as (Hsub & Hregen & _).
  - vm_compute. reflexivity.
  - split; [exact Hsub|]. split; [exact Hregen|].
    vm_compute. reflexivity.
Defined.

(** C10. The item a regeneration adds holds the remembered payload's prompt
    and the answers of the page at regeneration time; after one submission
    from the default answers and one change of the category, the stored
    answers are not the ones the stored prompt was derived from. *)
Theorem regenerate_item_pairs_old_prompt_with_current_answers :
  (forall (p : PageState) (env : Env) (lr : LastRequest) (url : jsstring),
     lastRequestRef p = Some lr -> delivered env = Some url ->
     history (fst (step p (Regenerate env)))
     = mkItem url (payload_prompt (payload lr)) (answers p) (now env)
       :: history p)
  /\ (exists (submitted : FormAnswers) (edits : list Event),
        let p0 := initialPage None in
        let p1 := fst (step p0 (Submit delivering_env)) in
        let p2 := run p1 edits in
        answers p0 = submitted
        /\ hd_error (history p1)
           = Some (mkItem (lit "data:image/png;base64,AAAA")
                     (composePrompt submitted false) submitted 1700000000000)
        /\ hd_error (history (fst (step p2 (Regenerate delivering_env))))
           = Some (mkItem (lit "data:image/png;base64,AAAA")
                     (composePrompt submitted false) (answers p2)
                     1700000000000)
        /\ answers p2 <> submitted
        /\ composePrompt (answers p2) false <> composePrompt submitted false).
Proof.
  split.
  - intros p env lr url Hlast Hdel. unfold step. cbn [fst].
    rewrite handleRegenerate_history. cbn [page].
    rewrite Hlast, Hdel. reflexivity.
  - exists DEFAULT_ANSWERS, [AnswersChange (SetCategory Gaming)].
    cbv zeta.
    split; [reflexivity|].
    split; [vm_compute; reflexivity|].
    split; [vm_compute; reflexivity|].
    split; [vm_compute; discriminate|].
    vm_compute. discriminate.
Qed.

Lemma regenerate_item_witness :
  history (fst (step (run (initialPage None) blanked_session)
                  (Regenerate delivering_env)))
  = mkItem (lit "data:image/png;base64,AAAA")
      (payload_prompt (payload first_request))
      (answers (run (initialPage None) blanked_session))
      (now delivering_env)
    :: history (run (initialPage None) blanked_session).
Proof.
  destruct regenerate_item_pairs_old_prompt_with_current_answers
    as (Hitem & _).
  apply Hitem.
  - vm_compute. reflexivity.
  - reflexivity.
Defined.

(* ===================================================================== *)
(** ** The generate route handler: which part is returned *)
(* ===================================================================== *)

Module GenerateProxyFacts.
Import GenerateProxy GenerateProxySamples.

Lemma scan_none (ps : list Part) :
  (forall q, In q ps -> inlineData q = None) -> scan ps = None.
Proof.
  induction ps as [|part rest IH]; intro Hnone; [reflexivity|].
  simpl. rewrite (Hnone part) by (left; reflexivity).
  apply IH. intros q Hq. apply Hnone. right. exact Hq.
Qed.

Lemma scan_first (ps : list Part) :
  forall (i : nat) (part : Part) (blob : Blob),
    nth_error ps i = Some part ->
    inlineData part = Some blob ->
    (forall j q, j < i -> nth_error ps j = Some q -> inlineData q = None) ->
    scan ps
    = Some (json_ok (DataUrlBody
              (lit "data:image/png;base64," ++ interpolate (data blob)))).
Proof.
  induction ps as [|p0 rest IH]; intros i part blob Hnth Hblob Hbefore.
  - destruct i; discriminate.
  - destruct i as [|i].
    + injection Hnth as ->. simpl. rewrite Hblob. reflexivity.
    + simpl. rewrite (Hbefore 0 p0) by (simpl; lia || reflexivity).
      apply (IH i part blob Hnth Hblob).
      intros j q Hj Hq. apply (Hbefore (S j) q); [lia | exact Hq].
Qed.

(** C3. Once the upstream call has returned a response, the handler
    answers 200 with the data URL built from the first part of the first
    candidate that carries inline data; when no part of the first
    candidate carries inline data (or there is no first candidate, content
    or parts) it answers 500 with the error [No image returned]. *)
Theorem POST_first_inline_part (prompt : option jsstring)
    (generateContent : option jsstring -> CallOutcome)
    (response : GenerateContentResponse) :
  generateContent prompt = Resolves response ->
  (forall (i : nat) (part : Part) (blob : Blob),
     nth_error (first_candidate_parts response) i = Some part ->
     inlineData part = Some blob ->
     (forall j q, j < i ->
        nth_error (first_candidate_parts response) j = Some q ->
        inlineData q = None) ->
     POST (BodyValue prompt) generateContent
     = mkNextResponse 200
         (DataUrlBody
            (lit "data:image/png;base64," ++ interpolate (data blob))))
  /\ ((forall q, In q (first_candidate_parts response) ->
         inlineData q = None) ->
      POST (BodyValue prompt) generateContent
      = mkNextResponse 500 (ErrorBody (lit "No image returned"))).
Proof.
  intro Hcall. unfold POST. rewrite Hcall.
  unfold respond, first_candidate_parts.
  split.
  - intros i part blob Hnth Hblob Hbefore.
    destruct (first_parts response) as [ps|].
    + rewrite (scan_first ps Hnth Hblob Hbefore). reflexivity.
    + destruct i; discriminate.
  - intro Hnone.
    destruct (first_parts response) as [ps|]; [|reflexivity].
    rewrite (scan_none ps Hnone). reflexivity.
Qed.

Lemma POST_first_inline_part_witness :
  POST (BodyValue (Some (lit "a cat")))
    (fun _ => Resolves text_then_images)
  = mkNextResponse 200 (DataUrlBody (lit "data:image/png;base64,AAAA"))
  /\ POST (BodyValue (Some (lit "a cat"))) (fun _ => Resolves text_only)
     = mkNextResponse 500 (ErrorBody (lit "No image returned")).
Proof.
  split.
  - destruct (@POST_first_inline_part (Some (lit "a cat"))
                (fun _ => Resolves text_then_images) text_then_images
                eq_refl) as (Hfirst & _).
    apply (Hfirst 1
             (mkPart (Some (mkBlob (Some (lit "AAAA"))
                              (Some (lit "image/png")))) None)
             (mkBlob (Some (lit "AAAA")) (Some (lit "image/png"))));
      [reflexivity | reflexivity |].
    intros j q Hj Hq.
    destruct j as [|j]; [|lia].
    injection Hq as <-. reflexivity.
  - destruct (@POST_first_inline_part (Some (lit "a cat"))
                (fun _ => Resolves text_only) text_only eq_refl)
      as (_ & Hnone).
    apply Hnone.
    intros q [<- | []]. reflexivity.
Defined.

End GenerateProxyFacts.

(* ===================================================================== *)
(** ** More on composePrompt and truncate *)
(* ===================================================================== *)

Lemma composePrompt_category_text (a b : FormAnswers) (hasImage : bool) :
  categoryText a = categoryText b -> styleText a = styleText b ->
  vibeText a = vibeText b -> textOverlay a = textOverlay b ->
  composePrompt a hasImage = composePrompt b hasImage.
Proof.
  intros Hc Hs Hv Ho. unfold composePrompt, composeParts, overlay.
  rewrite Hc, Hs, Hv, Ho. reflexivity.
Qed.

(** While an enum field is on one of its listed values, its clause is that
    label and the matching free-text field is ignored: typing into it does
    not change the prompt. *)
Theorem free_text_ignored_off_escape (a : FormAnswers) (hasImage : bool)
    (typed : jsstring) :
  (category a <> Other ->
   nth_error (composeParts a hasImage) 0
   = Some (lit "Category: " ++ Category_label (category a) ++ lit ".")
   /\ composePrompt (apply_edit (SetCustomCategory typed) a) hasImage
      = composePrompt a hasImage)
  /\ (style a <> Custom_style ->
      nth_error (composeParts a hasImage) 1
      = Some (lit "Style: " ++ Style_label (style a) ++ lit ".")
      /\ composePrompt (apply_edit (SetCustomStyle typed) a) hasImage
         = composePrompt a hasImage)
  /\ (vibe a <> Custom_vibe ->
      nth_error (composeParts a hasImage) 2
      = Some (lit "Colors/Vibe: " ++ Vibe_label (vibe a) ++ lit ".")
      /\ composePrompt (apply_edit (SetCustomVibe typed) a) hasImage
         = composePrompt a hasImage).
Proof.
  split; [|split]; intro Hoff; split.
  - simpl. unfold categoryText. destruct (category a); reflexivity || congruence.
  - apply composePrompt_category_text; try reflexivity.
    unfold categoryText. simpl. destruct (category a); reflexivity || congruence.
  - simpl. unfold styleText. destruct (style a); reflexivity || congruence.
  - apply composePrompt_category_text; try reflexivity.
    unfold styleText. simpl. destruct (style a); reflexivity || congruence.
  - simpl. unfold vibeText. destruct (vibe a); reflexivity || congruence.
  - apply composePrompt_category_text; try reflexivity.
    unfold vibeText. simpl. destruct (vibe a); reflexivity || congruence.
Qed.

Lemma free_text_ignored_off_escape_witness :
  composePrompt (apply_edit (SetCustomCategory (lit "Travel")) DEFAULT_ANSWERS)
    false
  = composePrompt DEFAULT_ANSWERS false.
Proof.
  destruct (free_text_ignored_off_escape DEFAULT_ANSWERS false (lit "Travel"))
    as (Hc & _).
  apply Hc. discriminate.
Defined.

(** On the escape value, a non-empty free text is the clause's text as it
    was typed, surrounding white space included. *)
Theorem custom_text_verbatim (a : FormAnswers) (hasImage : bool) :
  (category a = Other -> customCategory a <> [] ->
   nth_error (composeParts a hasImage) 0
   = Some (lit "Category: " ++ customCategory a ++ lit "."))
  /\ (style a = Custom_style -> customStyle a <> [] ->
      nth_error (composeParts a hasImage) 1
      = Some (lit "Style: " ++ customStyle a ++ lit "."))
  /\ (vibe a = Custom_vibe -> customVibe a <> [] ->
      nth_error (composeParts a hasImage) 2
      = Some (lit "Colors/Vibe: " ++ customVibe a ++ lit ".")).
Proof.
  repeat split; intros Henum Hfree; simpl;
    unfold categoryText, styleText, vibeText; rewrite Henum;
    unfold or_else; apply truthy_nonempty in Hfree; rewrite Hfree;
    reflexivity.
Qed.

Lemma custom_text_verbatim_witness :
  nth_error (composeParts custom_answers false) 0
  = Some (lit "Category:  Travel .").
Proof.
  destruct (custom_text_verbatim custom_answers false) as (Hc & _).
  apply Hc; [reflexivity | discriminate].
Defined.

(** The reference-image sentence is a part of the prompt exactly when an
    upload is present; with it the prompt is the prompt without it, the
    sentence put before the closing guidelines. *)
Theorem reference_clause_iff_upload (a : FormAnswers) (hasImage : bool) :
  (In reference_clause (composeParts a hasImage) <-> hasImage = true)
  /\ List.length (composeParts a hasImage) = (if hasImage then 6 else 5)
  /\ exists front : jsstring,
       composePrompt a false = front ++ lit " " ++ guidelines
       /\ composePrompt a true
          = front ++ lit " " ++ reference_clause ++ lit " " ++ guidelines.
Proof.
  split; [|split].
  - unfold composeParts, overlay. split.
    + intro Hin. destruct hasImage; [reflexivity|].
      simpl in Hin.
      destruct (truthy (textOverlay a)
                && (0 <? List.length (trim (textOverlay a))));
        decompose [or] Hin; try discriminate; contradiction.
    + intros ->. simpl. do 4 right. left. reflexivity.
  - destruct hasImage; reflexivity.
  - exists (lit "Category: " ++ categoryText a ++ lit "." ++ lit " "
            ++ lit "Style: " ++ styleText a ++ lit "." ++ lit " "
            ++ lit "Colors/Vibe: " ++ vibeText a ++ lit "." ++ lit " "
            ++ overlay a).
    unfold composePrompt, composeParts. cbn [app join].
    rewrite <- !app_assoc. split; reflexivity.
Qed.

(** Truncating twice is truncating once, and the first [n] code units are
    those of the text. *)
Theorem truncate_idempotent (s : jsstring) (n : nat) :
  truncate (truncate s n) n = truncate s n
  /\ firstn n (truncate s n) = firstn n s.
Proof.
  destruct (Nat.le_gt_cases (List.length s) n) as [H|H].
  - rewrite !truncate_short by (rewrite ?truncate_short; assumption).
    split; reflexivity.
  - assert (Hfirst : firstn n (firstn n s ++ [ellipsis]) = firstn n s).
    { rewrite firstn_app, length_firstn.
      replace (n - Nat.min n (List.length s)) with 0 by lia.
      rewrite firstn_firstn, Nat.min_id. simpl. apply app_nil_r. }
    rewrite (truncate_long s H). split; [|exact Hfirst].
    rewrite truncate_long.
    + rewrite Hfirst. reflexivity.
    + rewrite length_app, length_firstn. simpl. lia.
Qed.

(* ===================================================================== *)
(** ** Trimming *)
(* ===================================================================== *)

Lemma trimStart_head (s : jsstring) (c : code_unit) (r : jsstring) :
  trimStart s = c :: r -> is_white_space c = false.
Proof.
  induction s as [|x s IH]; simpl; [discriminate|].
  destruct (is_white_space x) eqn:E; [exact IH|].
  intro H. injection H as <- _. exact E.
Qed.

Lemma trimStart_nil_iff (s : jsstring) :
  trimStart s = [] <-> all_white_space s = true.
Proof.
  unfold all_white_space.
  induction s as [|x s IH]; simpl; [tauto|].
  destruct (is_white_space x); simpl; [exact IH|].
  split; discriminate.
Qed.

(** What [trimStart] removes is white space, and what it leaves is the
    rest. *)
Lemma trimStart_split (s : jsstring) :
  exists ws, s = ws ++ trimStart s /\ all_white_space ws = true.
Proof.
  unfold all_white_space.
  induction s as [|x s (ws & Hs & Hws)]; [exists []; split; reflexivity|].
  simpl. destruct (is_white_space x) eqn:E.
  - exists (x :: ws). simpl. rewrite E, Hws. split; [congruence | reflexivity].
  - exists []. split; reflexivity.
Qed.

Lemma trimStart_fixed (s : jsstring) : trimStart (trimStart s) = trimStart s.
Proof.
  destruct (trimStart s) as [|c r] eqn:E; [reflexivity|].
  simpl. rewrite (trimStart_head _ E). reflexivity.
Qed.

Lemma all_white_space_rev (s : jsstring) :
  all_white_space (rev s) = all_white_space s.
Proof.
  unfold all_white_space. induction s as [|x s IH]; [reflexivity|].
  simpl. rewrite forallb_app, IH. simpl. rewrite andb_true_r.
  apply andb_comm.
Qed.

Lemma trim_nil_iff (s : jsstring) :
  trim s = [] <-> all_white_space s = true.
Proof.
  unfold trim, trimEnd.
  destruct (trimStart_split s) as (ws & Hs & Hws).
  split.
  - intro H. apply (f_equal (@rev code_unit)) in H.
    rewrite rev_involutive in H. simpl in H.
    apply trimStart_nil_iff in H. rewrite all_white_space_rev in H.
    destruct (trimStart s) as [|c r] eqn:E.
    + apply trimStart_nil_iff. exact E.
    + apply trimStart_head in E. unfold all_white_space in H. simpl in H.
      rewrite E in H. discriminate.
  - intro H. apply trimStart_nil_iff in H. rewrite H. reflexivity.
Qed.

Lemma trim_fixed (s : jsstring) : trim (trim s) = trim s.
Proof.
  unfold trim at 2 3. set (t := trimStart s).
  assert (Hstart : trimStart (trimEnd t) = trimEnd t).
  { unfold trimEnd.
    destruct (trimStart_split (rev t)) as (ws & Hrev & _).
    apply (f_equal (@rev code_unit)) in Hrev.
    rewrite rev_involutive, rev_app_distr in Hrev.
    destruct (rev (trimStart (rev t))) as [|x u]; [reflexivity|].
    simpl in Hrev. subst t.
    apply trimStart_head in Hrev.
    simpl. rewrite Hrev. reflexivity. }
  unfold trim. rewrite Hstart.
  unfold trimEnd. rewrite rev_involutive, trimStart_fixed. reflexivity.
Qed.

Lemma composePrompt_suffix (a : FormAnswers) (hasImage : bool) :
  exists front : jsstring, composePrompt a hasImage = front ++ guidelines.
Proof.
  unfold composePrompt, composeParts. rewrite app_assoc.
  rewrite join_snoc by (destruct hasImage; discriminate).
  rewrite app_assoc. eexists. reflexivity.
Qed.

(** A derived prompt is never blank, so the only way to fail validation is
    a manual prompt that is not empty and holds white space only. *)
Theorem validation_fails_only_on_blank_manual_prompt (p : PageState) :
  trim (derivedPrompt p) <> []
  /\ (activePrompt p = []
      <-> prompt p <> [] /\ all_white_space (prompt p) = true).
Proof.
  assert (Hderived : forall a h, trim (composePrompt a h) <> []).
  { intros a h Hnil. apply trim_nil_iff in Hnil.
    destruct (composePrompt_suffix a h) as (front & Hfront).
    rewrite Hfront in Hnil. unfold all_white_space in Hnil.
    rewrite forallb_app in Hnil. apply andb_true_iff in Hnil.
    destruct Hnil as [_ Hnil]. vm_compute in Hnil. discriminate. }
  split; [apply Hderived|].
  unfold activePrompt. destruct (prompt p) as [|c r] eqn:E.
  - change (or_else [] (derivedPrompt p)) with (derivedPrompt p). split.
    + intro H. exfalso. exact (Hderived _ _ H).
    + intros [H _]. congruence.
  - change (or_else (c :: r) (derivedPrompt p)) with (c :: r).
    rewrite trim_nil_iff. split.
    + intro H. split; [discriminate | exact H].
    + intros [_ H]. exact H.
Qed.

(* ===================================================================== *)
(** ** What a request leaves on the page *)
(* ===================================================================== *)

Lemma submit_sent (p : PageState) (env : Env) (q : Request) :
  In q (snd (step p (Submit env))) ->
  exists lr, submit_request p = Some lr /\ q = request_of lr.
Proof.
  rewrite step_submit_issued.
  destruct (submit_request p) as [lr|]; simpl; [|tauto].
  intros [<- | []]. exists lr. split; reflexivity.
Qed.

(** The handlers leave the form alone: answers, prompt, its touched flag
    and the upload are what they were. *)
Lemma handlers_keep_form (p : PageState) (ev : Event) :
  (exists env, ev = Submit env \/ ev = Regenerate env) ->
  answers (fst (step p ev)) = answers p
  /\ prompt (fst (step p ev)) = prompt p
  /\ promptTouched (fst (step p ev)) = promptTouched p
  /\ uploadFile (fst (step p ev)) = uploadFile p.
Proof.
  intros (env & [-> | ->]).
  - submit_paths p; try close_fields;
      case_env env; try destruct (storageWritable env); close_fields.
  - regenerate_paths p; try close_fields;
      case_env env; try destruct (storageWritable env); close_fields.
Qed.

(** Every action issues at most one request, and only a submission or a
    regeneration issues any. *)
Theorem at_most_one_request (p : PageState) (ev : Event) :
  List.length (snd (step p ev)) <= 1
  /\ ((forall env, ev <> Submit env) -> (forall env, ev <> Regenerate env) ->
      snd (step p ev) = []).
Proof.
  destruct ev as [e|file|value| |index| |env|env];
    try (split; [simpl; lia | reflexivity]).
  - cbn [step]. destruct (nth_error (history p) index);
      (split; [simpl; lia | reflexivity]).
  - split; [|intros H _; exfalso; exact (H env eq_refl)].
    rewrite step_submit_issued. destruct (submit_request p); simpl; lia.
  - split; [|intros _ H; exfalso; exact (H env eq_refl)].
    rewrite step_regenerate_issued. destruct (lastRequestRef p); simpl; lia.
Qed.

(** The route of a submission is the edit route exactly when a file is
    uploaded, which is also when the button reads "Edit Image". *)
Theorem route_follows_upload (p : PageState) (env : Env) (q : Request) :
  In q (snd (step p (Submit env))) ->
  (req_route q = ApiEdit <-> uploadFile p <> None)
  /\ (req_route q = ApiEdit <-> primaryButtonLabel p = lit "Edit Image")
  /\ (req_route q = ApiGenerate
      <-> primaryButtonLabel p = lit "Generate Image").
Proof.
  intro Hin. apply submit_sent in Hin. destruct Hin as (lr & Hreq & ->).
  unfold primaryButtonLabel, submit_request in *.
  destruct (activePrompt p); [discriminate|].
  destruct (uploadFile p) as [file|].
  - destruct (file_dataURL file); [|discriminate].
    injection Hreq as <-. simpl.
    repeat split; intros; try reflexivity; discriminate.
  - injection Hreq as <-. simpl.
    repeat split; intros; try reflexivity; try discriminate; congruence.
Qed.

Lemma route_follows_upload_witness :
  req_route (mkRequest ApiEdit
               (JSON_stringify
                  (EditPayload (composePrompt DEFAULT_ANSWERS true)
                     (lit "iVBORw0KGgo=") (lit "image/png"))))
  = ApiEdit
  <-> uploadFile (fst (step (initialPage None) (FileChange (Some png_file))))
      <> None.
Proof.
  apply (@route_follows_upload
           (fst (step (initialPage None) (FileChange (Some png_file))))
           delivering_env).
  vm_compute. left. reflexivity.
Defined.




(** When the uploaded file cannot be read, the submission sends nothing,
    remembers nothing and shows the reader's error. *)
Theorem unreadable_upload_sends_nothing (p : PageState) (env : Env)
    (file : File) :
  activePrompt p <> [] ->
  uploadFile p = Some file ->
  file_dataURL file = None ->
  snd (step p (Submit env)) = []
  /\ error (fst (step p (Submit env))) = lit "Failed to read file"
  /\ lastRequestRef (fst (step p (Submit env))) = lastRequestRef p
  /\ history (fst (step p (Submit env))) = history p
  /\ imageUrl (fst (step p (Submit env))) = imageUrl p.
Proof.
  intros Hvalid Hfile Hread.
  submit_paths p; try congruence.
  close_fields.
Qed.

Lemma unreadable_upload_sends_nothing_witness :
  snd (step (onFileChange (Some unreadable_file) (initialPage None))
         (Submit delivering_env)) = []
  /\ error (fst (step (onFileChange (Some unreadable_file) (initialPage None))
                  (Submit delivering_env)))
     = lit "Failed to read file".
Proof.
  destruct (@unreadable_upload_sends_nothing
              (onFileChange (Some unreadable_file) (initialPage None))
              delivering_env unreadable_file)
    as (Hnone & Herr & _).
  - vm_compute. discriminate.
  - reflexivity.
  - reflexivity.
  - split; [exact Hnone | exact Herr].
Defined.

(** A request is remembered when it is sent, not when it succeeds: after
    a submission that sent a request, whatever came back, a regeneration
    sends that request again. *)
Theorem failed_request_is_remembered (p : PageState) (env env' : Env)
    (q : Request) :
  In q (snd (step p (Submit env))) ->
  snd (step (fst (step p (Submit env))) (Regenerate env')) = [q].
Proof.
  intro Hin. apply submit_sent in Hin. destruct Hin as (lr & Hreq & ->).
  rewrite step_regenerate_issued, step_submit_lastRequestRef, Hreq.
  reflexivity.
Qed.

Lemma failed_request_is_remembered_witness :
  snd (step (fst (step (initialPage None) (Submit offline_env)))
         (Regenerate delivering_env))
  = [request_of first_request].
Proof.
  apply (@failed_request_is_remembered (initialPage None) offline_env
           delivering_env (request_of first_request)).
  vm_compute. left. reflexivity.
Defined.

(** When [fetch] rejects, the page shows the rejection's message, or the
    handler's own fallback when there is none; the image stays. *)
Theorem rejected_fetch_message (p : PageState) (env : Env)
    (message : jsstring) :
  fetchOutcome env = FetchRejects message ->
  (forall q, In q (snd (step p (Submit env))) ->
     error (fst (step p (Submit env)))
     = or_else message
         (lit "Something went wrong while processing your request.")
     /\ imageUrl (fst (step p (Submit env))) = imageUrl p)
  /\ (forall lr, lastRequestRef p = Some lr ->
      error (fst (step p (Regenerate env)))
      = or_else message (lit "Could not regenerate the image.")
      /\ imageUrl (fst (step p (Regenerate env))) = imageUrl p).
Proof.
  intro Hfetch. split.
  - intros q Hin. apply submit_sent in Hin.
    destruct Hin as (lr & Hreq & _). revert Hreq.
    submit_paths p; intro Hreq; try discriminate;
      rewrite Hfetch; simpl; close_fields.
  - intros lr Hlast.
    regenerate_paths p; [|discriminate].
    rewrite Hfetch. simpl. close_fields.
Qed.

Lemma rejected_fetch_message_witness :
  error (fst (step (initialPage None) (Submit offline_env)))
  = lit "Failed to fetch".
Proof.
  destruct (@rejected_fetch_message (initialPage None) offline_env
              (lit "Failed to fetch") eq_refl) as (Hsubmit & _).
  destruct (Hsubmit (request_of first_request)) as (Herr & _).
  - vm_compute. left. reflexivity.
  - exact Herr.
Defined.

(** A 2xx response without a usable [data_url] (missing, or the empty
    string) is an error of its own: the message names it and the image
    stays. *)
Theorem missing_data_url_is_error (p : PageState) (env : Env)
    (res : Response) (d : option jsstring) :
  fetchOutcome env = FetchResolves res ->
  ok res = true ->
  json res = JsonValue d ->
  d = None \/ d = Some [] ->
  (forall q, In q (snd (step p (Submit env))) ->
     error (fst (step p (Submit env)))
     = lit "Invalid response: missing data_url"
     /\ imageUrl (fst (step p (Submit env))) = imageUrl p)
  /\ (forall lr, lastRequestRef p = Some lr ->
      error (fst (step p (Regenerate env)))
      = lit "Invalid response: missing data_url"
      /\ imageUrl (fst (step p (Regenerate env))) = imageUrl p).
Proof.
  intros Hfetch Hok Hjson Hd. split.
  - intros q Hin. apply submit_sent in Hin.
    destruct Hin as (lr & Hreq & _). revert Hreq.
    submit_paths p; intro Hreq; try discriminate;
      rewrite Hfetch; simpl; rewrite Hok, Hjson; simpl;
      destruct Hd as [-> | ->]; close_fields.
  - intros lr Hlast.
    regenerate_paths p; [|discriminate].
    rewrite Hfetch. simpl. rewrite Hok, Hjson. simpl.
    destruct Hd as [-> | ->]; close_fields.
Qed.

Lemma missing_data_url_is_error_witness :
  error (fst (step (initialPage None) (Submit no_url_env)))
  = lit "Invalid response: missing data_url".
Proof.
  destruct (@missing_data_url_is_error (initialPage None) no_url_env
              (mkResponse true None (JsonValue None)) None
              eq_refl eq_refl eq_refl (or_introl eq_refl))
    as (Hsubmit & _).
  destruct (Hsubmit (request_of first_request)) as (Herr & _).
  - vm_compute. left. reflexivity.
  - exact Herr.
Defined.

(** When a response delivers an image, the page shows it and the error is
    cleared; the stored history becomes the new history when local storage
    takes the write, and is left as it was, silently, when it does not. *)
Theorem delivered_image_is_shown (p : PageState) (env : Env)
    (url : jsstring) :
  delivered env = Some url ->
  (forall q, In q (snd (step p (Submit env))) ->
     imageUrl (fst (step p (Submit env))) = url
     /\ error (fst (step p (Submit env))) = []
     /\ thumbHistory (fst (step p (Submit env)))
        = (if storageWritable env
           then Some (history (fst (step p (Submit env))))
           else thumbHistory p))
  /\ (forall lr, lastRequestRef p = Some lr ->
      imageUrl (fst (step p (Regenerate env))) = url
      /\ error (fst (step p (Regenerate env))) = []
      /\ thumbHistory (fst (step p (Regenerate env)))
         = (if storageWritable env
            then Some (history (fst (step p (Regenerate env))))
            else thumbHistory p)).
Proof.
  unfold delivered. intro Hdel. split.
  - intros q Hin. apply submit_sent in Hin.
    destruct Hin as (lr & Hreq & _). revert Hreq Hdel.
    submit_paths p; intros Hreq Hdel; try discriminate;
      case_env env; simpl in Hdel; try discriminate;
      injection Hdel as <-; destruct (storageWritable env); close_fields.
  - intros lr Hlast. revert Hdel.
    regenerate_paths p; [|discriminate]. intro Hdel.
    case_env env; simpl in Hdel; try discriminate;
      injection Hdel as <-; destruct (storageWritable env); close_fields.
Qed.

Lemma delivered_image_is_shown_witness :
  imageUrl (fst (step (initialPage (Some [earlier_item]))
                   (Submit full_storage_env)))
  = lit "data:image/png;base64,CCCC"
  /\ error (fst (step (initialPage (Some [earlier_item]))
                  (Submit full_storage_env))) = []
  /\ thumbHistory (fst (step (initialPage (Some [earlier_item]))
                         (Submit full_storage_env)))
     = Some [earlier_item].
Proof.
  destruct (@delivered_image_is_shown (initialPage (Some [earlier_item]))
              full_storage_env (lit "data:image/png;base64,CCCC") eq_refl)
    as (Hsubmit & _).
  apply (Hsubmit (request_of first_request)).
  vm_compute. left. reflexivity.
Defined.





(* ===================================================================== *)
(** ** History actions and the prompt field *)
(* ===================================================================== *)



(** The effect does nothing to an edited prompt. *)
Lemma syncEffect_touched (before after : PageState) :
  promptTouched after = true -> syncEffect before after = after.
Proof.
  intro H. unfold syncEffect. rewrite H, andb_false_r. reflexivity.
Qed.

Lemma select_history_page (p : PageState) (index : nat)
    (item : HistoryItem) :
  nth_error (history p) index = Some item ->
  step p (SelectHistory index) = (onSelectHistory item p, []).
Proof.
  intro Hitem. cbn [step]. rewrite Hitem.
  rewrite syncEffect_touched by reflexivity. reflexivity.
Qed.

(** Selecting a history item puts its image, answers and prompt on the
    page and marks the prompt as edited, so the prompt shown is the item's
    even when its answers would derive another; the history, the upload
    and the remembered request are not touched. *)
Theorem select_history_loads_item (p : PageState) (index : nat)
    (item : HistoryItem) :
  nth_error (history p) index = Some item ->
  imageUrl (fst (step p (SelectHistory index))) = data_url item
  /\ answers (fst (step p (SelectHistory index))) = item_answers item
  /\ prompt (fst (step p (SelectHistory index))) = item_prompt item
  /\ promptTouched (fst (step p (SelectHistory index))) = true
  /\ history (fst (step p (SelectHistory index))) = history p
  /\ uploadFile (fst (step p (SelectHistory index))) = uploadFile p
  /\ lastRequestRef (fst (step p (SelectHistory index))) = lastRequestRef p
  /\ snd (step p (SelectHistory index)) = [].
Proof.
  intro Hitem. rewrite (@select_history_page p index item Hitem).
  repeat split; reflexivity.
Qed.

(** After a submission whose response delivered an image, selecting the
    newest item brings back the prompt that was sent, the answers it was
    sent with and the image. *)
Theorem select_newest_restores_submission (p : PageState) (env : Env)
    (url : jsstring) (q : Request) :
  delivered env = Some url ->
  In q (snd (step p (Submit env))) ->
  prompt (run p [Submit env; SelectHistory 0]) = activePrompt p
  /\ answers (run p [Submit env; SelectHistory 0]) = answers p
  /\ imageUrl (run p [Submit env; SelectHistory 0]) = url
  /\ promptTouched (run p [Submit env; SelectHistory 0]) = true.
Proof.
  intros Hdel Hin. apply submit_sent in Hin. destruct Hin as (lr & Hreq & _).
  cbn [run].
  assert (Hhead : nth_error (history (fst (step p (Submit env)))) 0
                  = Some (mkItem url (activePrompt p) (answers p) (now env))).
  { unfold step. cbn [fst]. rewrite handleSubmit_history, Hreq, Hdel.
    reflexivity. }
  rewrite (@select_history_page _ 0 _ Hhead).
  repeat split; reflexivity.
Qed.

Lemma select_newest_restores_submission_witness :
  prompt (run (onPromptChange (lit "  a red fox  ") (initialPage None))
            [Submit delivering_env; SelectHistory 0])
  = lit "a red fox".
Proof.
  destruct (@select_newest_restores_submission
              (onPromptChange (lit "  a red fox  ") (initialPage None))
              delivering_env (lit "data:image/png;base64,AAAA")
              (mkRequest ApiGenerate
                 (JSON_stringify (GeneratePayload (lit "a red fox")))))
    as (Hprompt & _).
  - reflexivity.
  - vm_compute. left. reflexivity.
  - rewrite Hprompt. vm_compute. reflexivity.
Defined.

Lemma select_history_loads_item_witness :
  prompt (fst (step (initialPage (Some [earlier_item])) (SelectHistory 0)))
  = lit "an earlier prompt"
  /\ promptTouched
       (fst (step (initialPage (Some [earlier_item])) (SelectHistory 0)))
     = true.
Proof.
  destruct (@select_history_loads_item (initialPage (Some [earlier_item])) 0
              earlier_item eq_refl)
    as (_ & _ & Hprompt & Htouched & _).
  split; [exact Hprompt | exact Htouched].
Defined.

Lemma derivedPrompt_depends (p p' : PageState) :
  answers p' = answers p -> uploadFile p' = uploadFile p ->
  derivedPrompt p' = derivedPrompt p.
Proof. unfold derivedPrompt. intros -> ->. reflexivity. Qed.

Lemma syncEffect_untouched (before after : PageState) :
  promptTouched after = promptTouched before ->
  prompt after = prompt before ->
  (promptTouched before = false -> prompt before = derivedPrompt before) ->
  promptTouched (syncEffect before after) = false ->
  prompt (syncEffect before after) = derivedPrompt (syncEffect before after).
Proof.
  intros Htouched Hprompt Hinv. unfold syncEffect.
  destruct (JS.eqb (derivedPrompt before) (derivedPrompt after)) eqn:Esame;
    cbn [negb andb].
  - intro H. apply eqb_eq in Esame.
    rewrite Hprompt, <- Esame. apply Hinv. congruence.
  - destruct (promptTouched after) eqn:Eafter; cbn [negb andb].
    + rewrite Eafter. discriminate.
    + intros _. reflexivity.
Qed.

Lemma step_keeps_untouched (p : PageState) (ev : Event) :
  (promptTouched p = false -> prompt p = derivedPrompt p) ->
  promptTouched (fst (step p ev)) = false ->
  prompt (fst (step p ev)) = derivedPrompt (fst (step p ev)).
Proof.
  intros Hinv.
  destruct ev as [e|file|value| |index| |env|env].
  - cbn [step fst]. apply syncEffect_untouched; [reflexivity.. | exact Hinv].
  - cbn [step fst]. apply syncEffect_untouched; [reflexivity.. | exact Hinv].
  - cbn [step fst onPromptChange]. simpl. discriminate.
  - intros _. reflexivity.
  - cbn [step]. destruct (nth_error (history p) index) as [item|] eqn:Eitem.
    + pose proof (@select_history_page p index item Eitem) as Hpage.
      cbn [step] in Hpage. rewrite Eitem in Hpage.
      rewrite Hpage. discriminate.
    + cbn [fst]. exact Hinv.
  - cbn [step fst]. exact Hinv.
  - destruct (@handlers_keep_form p (Submit env))
      as (Ha & Hp & Ht & Hu); [exists env; left; reflexivity|].
    rewrite Hp, Ht, (@derivedPrompt_depends _ _ Ha Hu). exact Hinv.
  - destruct (@handlers_keep_form p (Regenerate env))
      as (Ha & Hp & Ht & Hu); [exists env; right; reflexivity|].
    rewrite Hp, Ht, (@derivedPrompt_depends _ _ Ha Hu). exact Hinv.
Qed.

(** Until the prompt field is edited (and again after a resync), the prompt
    on the page is the one derived from the current answers and upload, at
    every point of every session. *)
Theorem untouched_prompt_is_derived (stored : option (list HistoryItem))
    (evs : list Event) :
  promptTouched (run (initialPage stored) evs) = false ->
  prompt (run (initialPage stored) evs)
  = composePrompt (answers (run (initialPage stored) evs))
      (match uploadFile (run (initialPage stored) evs) with
       | Some _ => true
       | None => false
       end).
Proof.
  assert (H : forall p,
             (promptTouched p = false -> prompt p = derivedPrompt p) ->
             promptTouched (run p evs) = false ->
             prompt (run p evs) = derivedPrompt (run p evs)).
  { induction evs as [|ev rest IH]; intros p Hp; [exact Hp|].
    cbn [run]. apply IH. apply step_keeps_untouched. exact Hp. }
  apply H. intros _. reflexivity.
Qed.

Lemma untouched_prompt_is_derived_witness :
  prompt (run (initialPage None)
            [AnswersChange (SetCategory Gaming); FileChange (Some png_file)])
  = composePrompt
      (answers (run (initialPage None)
                  [AnswersChange (SetCategory Gaming);
                   FileChange (Some png_file)]))
      (match uploadFile (run (initialPage None)
                           [AnswersChange (SetCategory Gaming);
                            FileChange (Some png_file)]) with
       | Some _ => true
       | None => false
       end).
Proof.
  apply (@untouched_prompt_is_derived None
           [AnswersChange (SetCategory Gaming); FileChange (Some png_file)]).
  vm_compute. reflexivity.
Defined.

(** An edited prompt is kept: while the prompt is marked as edited, changing
    the answers or the upload, clearing the history, submitting and
    regenerating leave it as typed. *)
Theorem edited_prompt_is_kept (p : PageState) (ev : Event) :
  promptTouched p = true ->
  (forall value, ev <> PromptChange value) ->
  ev <> SyncPrompt ->
  (forall index, ev <> SelectHistory index) ->
  prompt (fst (step p ev)) = prompt p
  /\ promptTouched (fst (step p ev)) = true.
Proof.
  intros Htouched Hedit Hsync Hselect.
  destruct ev as [e|file|value| |index| |env|env].
  - cbn [step fst]. rewrite syncEffect_touched by exact Htouched.
    split; [reflexivity | exact Htouched].
  - cbn [step fst]. rewrite syncEffect_touched by exact Htouched.
    split; [reflexivity | exact Htouched].
  - exfalso. exact (Hedit value eq_refl).
  - exfalso. exact (Hsync eq_refl).
  - exfalso. exact (Hselect index eq_refl).
  - split; [reflexivity | exact Htouched].
  - destruct (@handlers_keep_form p (Submit env))
      as (_ & Hp & Ht & _); [exists env; left; reflexivity|].
    rewrite Hp, Ht. split; [reflexivity | exact Htouched].
  - destruct (@handlers_keep_form p (Regenerate env))
      as (_ & Hp & Ht & _); [exists env; right; reflexivity|].
    rewrite Hp, Ht. split; [reflexivity | exact Htouched].
Qed.

Lemma edited_prompt_is_kept_witness :
  prompt (fst (step (onPromptChange (lit "a red fox") (initialPage None))
                 (AnswersChange (SetCategory Gaming))))
  = prompt (onPromptChange (lit "a red fox") (initialPage None)).
Proof.
  destruct (@edited_prompt_is_kept
              (onPromptChange (lit "a red fox") (initialPage None))
              (AnswersChange (SetCategory Gaming)))
    as (Hprompt & _); try discriminate.
  - reflexivity.
  - exact Hprompt.
Defined.

(* ===================================================================== *)
(** ** Reading the upload and what is remembered *)
(* ===================================================================== *)

Lemma has_comma_app (a b : jsstring) :
  has_comma (a ++ b) = has_comma a || has_comma b.
Proof. apply existsb_app. Qed.

Lemma up_to_comma_no_comma (s : jsstring) : has_comma (up_to_comma s) = false.
Proof.
  unfold has_comma. induction s as [|c s IH]; [reflexivity|].
  cbn [up_to_comma]. destruct (c =? 44)%N eqn:E; [reflexivity|].
  cbn [existsb]. rewrite IH, N.eqb_sym, E. reflexivity.
Qed.

Lemma up_to_comma_all (s : jsstring) :
  has_comma s = false -> up_to_comma s = s.
Proof.
  unfold has_comma. induction s as [|c s IH]; [reflexivity|].
  cbn [existsb up_to_comma after_comma app]. intro H. apply orb_false_iff in H. destruct H as [Hc Hs].
  rewrite N.eqb_sym, Hc, (IH Hs). reflexivity.
Qed.

Lemma after_comma_first (header rest : jsstring) :
  has_comma header = false ->
  after_comma (header ++ 44%N :: rest) = Some rest.
Proof.
  unfold has_comma. induction header as [|c header IH]; [reflexivity|].
  cbn [existsb up_to_comma after_comma app]. intro H. apply orb_false_iff in H. destruct H as [Hc Hs].
  rewrite N.eqb_sym, Hc. exact (IH Hs).
Qed.

Lemma after_comma_none (s : jsstring) :
  has_comma s = false -> after_comma s = None.
Proof.
  unfold has_comma. induction s as [|c s IH]; [reflexivity|].
  cbn [existsb up_to_comma after_comma app]. intro H. apply orb_false_iff in H. destruct H as [Hc Hs].
  rewrite N.eqb_sym, Hc. exact (IH Hs).
Qed.

Lemma or_else_nil_r (s : jsstring) : or_else s [] = s.
Proof. destruct s; reflexivity. Qed.

(** [fileToBase64] on a data URL [header,payload]: the payload comes back
    as it is, with the file's type, or [image/png] when the file has none.
    In general the result never holds a comma, and it is empty when the URL
    has no comma. *)
Theorem fileToBase64_payload (file : File) (dataUrl : jsstring)
    (st : HState) :
  file_dataURL file = Some dataUrl ->
  exists base64 : jsstring,
    fileToBase64 file st
    = (st, Returned (base64, or_else (file_type file) (lit "image/png")))
    /\ has_comma base64 = false
    /\ (has_comma dataUrl = false -> base64 = [])
    /\ (forall header payload : jsstring,
          dataUrl = header ++ 44%N :: payload ->
          has_comma header = false -> has_comma payload = false ->
          base64 = payload)
    /\ (file_type file = [] ->
        snd (fileToBase64 file st) = Returned (base64, lit "image/png")).
Proof.
  intro Hread. unfold fileToBase64, ret. rewrite Hread.
  exists (match split_comma_1 dataUrl with
          | Some b => or_else b []
          | None => []
          end).
  split; [reflexivity|]. unfold split_comma_1. split; [|split; [|split]].
  - destruct (after_comma dataUrl); [|reflexivity].
    simpl. rewrite or_else_nil_r. apply up_to_comma_no_comma.
  - intro H. rewrite (@after_comma_none _ H). reflexivity.
  - intros header payload -> Hheader Hpayload.
    rewrite (@after_comma_first header payload Hheader). simpl.
    rewrite or_else_nil_r. apply up_to_comma_all, Hpayload.
  - intros ->. reflexivity.
Qed.

Lemma fileToBase64_payload_witness :
  exists base64 : jsstring,
    fileToBase64 png_file (mkHState (initialPage None) [])
    = (mkHState (initialPage None) [],
       Returned (base64, or_else (file_type png_file) (lit "image/png")))
    /\ has_comma base64 = false
    /\ (has_comma (lit "data:image/png;base64,iVBORw0KGgo=") = false ->
        base64 = [])
    /\ (forall header payload : jsstring,
          lit "data:image/png;base64,iVBORw0KGgo=" = header ++ 44%N :: payload ->
          has_comma header = false -> has_comma payload = false ->
          base64 = payload)
    /\ (file_type png_file = [] ->
        snd (fileToBase64 png_file (mkHState (initialPage None) []))
        = Returned (base64, lit "image/png")).
Proof.
  apply (@fileToBase64_payload png_file
           (lit "data:image/png;base64,iVBORw0KGgo=")
           (mkHState (initialPage None) [])).
  reflexivity.
Defined.

Lemma submit_request_ok (p : PageState) (lr : LastRequest) :
  submit_request p = Some lr -> remembered_ok lr.
Proof.
  unfold submit_request, remembered_ok.
  destruct (activePrompt p) as [|c ap] eqn:Eactive; [discriminate|].
  assert (Htrim : trim (c :: ap) = c :: ap).
  { rewrite <- Eactive. unfold activePrompt. apply trim_fixed. }
  destruct (uploadFile p) as [file|].
  - destruct (file_dataURL file) as [dataUrl|]; [|discriminate].
    intro H. injection H as <-. cbn [payload route payload_prompt].
    split; [discriminate|]. split; [exact Htrim|].
    unfold split_comma_1. destruct (after_comma dataUrl); [|reflexivity].
    apply up_to_comma_no_comma.
  - intro H. injection H as <-. cbn [payload route payload_prompt].
    split; [discriminate|]. split; [exact Htrim | exact I].
Qed.

(** The remembered request is always fit to be sent again: at every point
    of every session its prompt is not empty and already trimmed, and its
    payload has the shape its route expects. *)
Theorem remembered_request_is_valid (stored : option (list HistoryItem))
    (evs : list Event) (lr : LastRequest) :
  lastRequestRef (run (initialPage stored) evs) = Some lr ->
  payload_prompt (payload lr) <> []
  /\ trim (payload_prompt (payload lr)) = payload_prompt (payload lr)
  /\ match route lr, payload lr with
     | ApiGenerate, GeneratePayload _ => True
     | ApiEdit, EditPayload _ base64Image _ => has_comma base64Image = false
     | _, _ => False
     end.
Proof.
  assert (H : forall p,
             (forall r, lastRequestRef p = Some r -> remembered_ok r) ->
             forall r, lastRequestRef (run p evs) = Some r -> remembered_ok r).
  { induction evs as [|ev rest IH]; intros p Hp; [exact Hp|].
    cbn [run]. apply IH. intros r.
    destruct ev as [e|file|value| |index| |env|env];
      try (rewrite step_keeps_lastRequestRef by discriminate; apply Hp).
    rewrite step_submit_lastRequestRef.
    destruct (submit_request p) as [lr'|] eqn:Ereq; [|apply Hp].
    intro Hr. injection Hr as <-. exact (@submit_request_ok _ _ Ereq). }
  intro Hlast. apply (H (initialPage stored)); [discriminate | exact Hlast].
Qed.

Lemma remembered_request_is_valid_witness :
  payload_prompt (payload first_request) <> []
  /\ trim (payload_prompt (payload first_request))
     = payload_prompt (payload first_request)
  /\ match route first_request, payload first_request with
     | ApiGenerate, GeneratePayload _ => True
     | ApiEdit, EditPayload _ base64Image _ => has_comma base64Image = false
     | _, _ => False
     end.
Proof.
  apply (@remembered_request_is_valid None blanked_session first_request).
  vm_compute. reflexivity.
Defined.

Lemma at_most_one_request_witness :
  List.length (snd (step (initialPage None) (Submit delivering_env))) <= 1
  /\ snd (step (initialPage None) ClearHistory) = [].
Proof.
  split.
  - apply (at_most_one_request (initialPage None) (Submit delivering_env)).
  - apply (at_most_one_request (initialPage None) ClearHistory);
      discriminate.
Defined.

(** Without a remembered request a regeneration does nothing at all: no
    request, and the page, its error included, is as it was. *)
Theorem regenerate_without_request_is_noop (p : PageState) (env : Env) :
  lastRequestRef p = None ->
  step p (Regenerate env) = (p, []).
Proof.
  intro Hnone. unfold step, handleRegenerate, getLastRequestRef, bind, ret.
  cbn [page fst]. rewrite Hnone. reflexivity.
Qed.

Lemma regenerate_without_request_is_noop_witness :
  step (run (initialPage (Some [earlier_item])) [SelectHistory 0])
    (Regenerate delivering_env)
  = (run (initialPage (Some [earlier_item])) [SelectHistory 0], []).
Proof.
  apply (@regenerate_without_request_is_noop
           (run (initialPage (Some [earlier_item])) [SelectHistory 0])
           delivering_env).
  vm_compute. reflexivity.
Defined.

(* ===================================================================== *)
(** ** The upload preview *)
(* ===================================================================== *)

Lemma file_step_keeps_one_live (s : PreviewState) (file : option File) :
  live s = match uploadPreview s with Some u => [u] | None => [] end ->
  (forall u, uploadPreview s = Some u -> (u < next_url s)%N) ->
  live (file_step s file)
  = match uploadPreview (file_step s file) with
    | Some u => [u]
    | None => []
    end
  /\ (forall u, uploadPreview (file_step s file) = Some u ->
      (u < next_url (file_step s file))%N)
  /\ (uploadPreview (file_step s file) = None <-> file = None).
Proof.
  destruct s as [preview alive next]. cbn [live uploadPreview next_url].
  intros Hlive Hfresh. subst alive.
  unfold file_step, onFileChange_preview, previewCleanup, createObjectURL,
    setUploadPreview, revokeObjectURL.
  cbn [live uploadPreview next_url].
  destruct preview as [u|]; destruct file as [f|];
    cbn [live uploadPreview next_url same_preview filter].
  - pose proof (Hfresh u eq_refl) as Hu.
    rewrite N.eqb_refl. cbn [negb filter live uploadPreview next_url].
    assert (Hne : (u =? next)%N = false) by (apply N.eqb_neq; lia).
    rewrite Hne. cbn [live uploadPreview next_url filter].
    rewrite N.eqb_sym, Hne. cbn [negb].
    split; [reflexivity|]. split.
    + intros v Hv. injection Hv as <-. lia.
    + split; discriminate.
  - rewrite N.eqb_refl. cbn [negb filter live uploadPreview next_url].
    split; [reflexivity|]. split; [discriminate|]. split; reflexivity.
  - split; [reflexivity|]. split.
    + intros v Hv. injection Hv as <-. lia.
    + split; discriminate.
  - split; [reflexivity|]. split; [discriminate|]. split; reflexivity.
Qed.

Lemma last_default (x : option File) (l : list (option File))
    (d d' : option File) :
  last (x :: l) d = last (x :: l) d'.
Proof.
  revert x. induction l as [|y l IH]; intro x; [reflexivity|].
  change (last (y :: l) d = last (y :: l) d'). apply IH.
Qed.

(** Whatever files are selected and cleared, no object URL leaks: the only
    live one is the preview on the page, and there is a preview exactly
    when the last selection was a file. *)
Theorem preview_urls_do_not_leak (files : list (option File)) :
  live (file_run initialPreview files)
  = match uploadPreview (file_run initialPreview files) with
    | Some u => [u]
    | None => []
    end
  /\ List.length (live (file_run initialPreview files)) <= 1
  /\ (uploadPreview (file_run initialPreview files) = None
      <-> last files None = None).
Proof.
  assert (H : forall s,
             live s = match uploadPreview s with Some u => [u] | None => [] end ->
             (forall u, uploadPreview s = Some u -> (u < next_url s)%N) ->
             live (file_run s files)
             = match uploadPreview (file_run s files) with
               | Some u => [u]
               | None => []
               end
             /\ (uploadPreview (file_run s files) = None
                 <-> last files (match uploadPreview s with
                                 | Some _ => Some (mkFile [] None)
                                 | None => None
                                 end) = None)).
  { induction files as [|file rest IH]; intros s Hlive Hfresh.
    - split; [exact Hlive|]. cbn [file_run last].
      destruct (uploadPreview s); split; congruence.
    - destruct (@file_step_keeps_one_live s file Hlive Hfresh)
        as (Hlive' & Hfresh' & Hnone).
      destruct (IH _ Hlive' Hfresh') as (Hl & Hp).
      cbn [file_run]. split; [exact Hl|]. rewrite Hp.
      destruct rest as [|file' rest'].
      2:{ rewrite (last_default file (file' :: rest')
                     (match uploadPreview s with
                      | Some _ => Some (mkFile [] None)
                      | None => None
                      end)
                     (match uploadPreview (file_step s file) with
                      | Some _ => Some (mkFile [] None)
                      | None => None
                      end)).
          reflexivity. }
      cbn [last].
      destruct (uploadPreview (file_step s file)) eqn:E.
      + split; [discriminate|]. intro Hf. apply Hnone in Hf. discriminate.
      + split; [|reflexivity]. intros _. apply Hnone. reflexivity. }
  destruct (H initialPreview eq_refl) as (Hl & Hp); [discriminate|].
  split; [exact Hl|]. split; [|exact Hp].
  rewrite Hl. destruct (uploadPreview (file_run initialPreview files));
    simpl; lia.
Qed.

(* ===================================================================== *)
(** ** The generate route handler: what it answers *)
(* ===================================================================== *)

Module GenerateProxyAnswers.
Import GenerateProxy GenerateProxySamples.

Lemma scan_shape (ps : list Part) (r : NextResponse) :
  scan ps = Some r ->
  status r = 200%N
  /\ exists d, body r = DataUrlBody (lit "data:image/png;base64," ++ d).
Proof.
  induction ps as [|part rest IH]; [discriminate|].
  simpl. destruct (inlineData part) as [blob|]; [|exact IH].
  intro H. injection H as <-. split; [reflexivity|].
  exists (interpolate (data blob)). reflexivity.
Qed.

(** The handler only ever answers 200 with a PNG data URL, or 500 with an
    error message that is not empty; what the request body or the upstream
    call throws comes back as the message, or as [Server error] when it has
    none. *)
Theorem POST_answers (req : RequestJson)
    (generateContent : option jsstring -> CallOutcome) :
  ((status (POST req generateContent) = 200%N
    /\ exists d, body (POST req generateContent)
                 = DataUrlBody (lit "data:image/png;base64," ++ d))
   \/ (status (POST req generateContent) = 500%N
       /\ exists m, body (POST req generateContent) = ErrorBody m
                    /\ m <> []))
  /\ (forall message,
        req = BodyThrows message
        \/ (exists prompt, req = BodyValue prompt
                           /\ generateContent prompt = Rejects message) ->
        POST req generateContent
        = mkNextResponse 500
            (ErrorBody (match message with
                        | [] => lit "Server error"
                        | _ :: _ => message
                        end))).
Proof.
  assert (Herr : forall m,
             exists m', ErrorBody (or_else m (lit "Server error"))
                        = ErrorBody m' /\ m' <> []).
  { intro m. eexists. split; [reflexivity|].
    destruct m; discriminate. }
  split.
  - destruct req as [message|prompt]; cbn [POST].
    + right. split; [reflexivity|]. apply Herr.
    + destruct (generateContent prompt) as [response|message].
      * unfold respond.
        destruct (first_parts response) as [ps|].
        -- destruct (scan ps) as [r|] eqn:Escan.
           ++ left. exact (scan_shape _ Escan).
           ++ right. split; [reflexivity|].
              eexists. split; [reflexivity | discriminate].
        -- right. split; [reflexivity|].
           eexists. split; [reflexivity | discriminate].
      * right. split; [reflexivity|]. apply Herr.
  - intros message [-> | (prompt & -> & Hcall)]; cbn [POST];
      try rewrite Hcall; destruct message; reflexivity.
Qed.

Lemma POST_answers_witness :
  POST (BodyValue (Some (lit "a cat"))) (fun _ => Rejects [])
  = mkNextResponse 500 (ErrorBody (lit "Server error")).
Proof.
  destruct (POST_answers (BodyValue (Some (lit "a cat")))
              (fun _ => Rejects [])) as (_ & Hthrown).
  apply (Hthrown []). right.
  exists (Some (lit "a cat")). split; reflexivity.
Defined.


End GenerateProxyAnswers.
